(** * Keepalive-guarded RPC sessions: [SyncProtocol] and [UpgradeProtocol]

    A shallow embedding of [src/sync-protocol.js] (class [SyncProtocol], the
    identifying variant) and of the second session class of the repository
    (class [UpgradeProtocol], the minimal variant), followed by the properties
    of the session life cycle that hold of them.

    The two classes share, statement for statement, the bodies of
    [rpcHeartbeat], [createStream], [onRpcClose], [onTimeout], [onHeartbeat]
    and [close]; they differ in the constructor (identity fields), in
    [rpcGetPeerInfo] and in the sync channel methods, which play no part
    below.  The shared methods are therefore embedded once, over a session
    record that carries its class.

    JavaScript objects are mutable and the methods are run by an event loop,
    one callback at a time.  A method is embedded as a computation over a
    [World]: the fields of the session object, the store of the timers it
    created, the state of its transport binding, the queue of [nextTick]
    callbacks and a log of the calls made to collaborators.  A computation
    either returns or throws, and keeps the world it reached in both cases,
    as a JavaScript exception does. *)

From Stdlib Require Import ZArith.
From stdpp Require Import base tactics option list strings.

(** ** JavaScript values *)

(** Numbers are modelled on the integers together with [NaN]; [-0] is
    identified with [0].  Fractions and infinities are left out. *)
Inductive JsNumber : Type :=
  | Int (z : Z)
  | NaN.
Arguments Int z%_Z.

(** The values an option such as [opts.timeout] ranges over in this
    development: [undefined], [null], booleans and numbers. *)
Inductive JsValue : Type :=
  | JsUndefined
  | JsNull
  | JsBool (b : bool)
  | JsNum (n : JsNumber).

Inductive JsError : Type :=
  | Error (message : string)
  | TypeError (message : string).

(** ToBoolean. *)
Definition truthy (v : JsValue) : bool :=
  match v with
  | JsUndefined => false
  | JsNull => false
  | JsBool b => b
  | JsNum (Int z) => negb (z =? 0)%Z
  | JsNum NaN => false
  end.

(** [a || b] on values. *)
Definition js_or (a b : JsValue) : JsValue :=
  if truthy a then a else b.

(** ToNumber. *)
Definition ToNumber (v : JsValue) : JsNumber :=
  match v with
  | JsUndefined => NaN
  | JsNull => Int 0
  | JsBool true => Int 1
  | JsBool false => Int 0
  | JsNum n => n
  end.

(** [Math.floor(v / 2)].  Halving an integer and rounding towards minus
    infinity is [Z.div] by [2]. *)
Definition floor_half (v : JsValue) : JsValue :=
  match ToNumber v with
  | Int z => JsNum (Int (z / 2)%Z)
  | NaN => JsNum NaN
  end.

(** A string option ([opts.deviceName]): [undefined] or a string; it is
    falsy when absent or empty. *)
Definition truthy_str (o : option string) : bool :=
  match o with
  | Some s => negb (String.eqb s "")
  | None => false
  end.

(** ** Callbacks *)

(** A callback handed in by the caller is opaque: [Fn n] is the caller's
    [n]-th function, and calling it is recorded in the log.  [Noop] is
    [function noop () {}] ([util.noop] in [sync-protocol.js]), and
    [Bind f a] is [f.bind(null, a)]. *)
Inductive Callback : Type :=
  | Noop
  | Fn (name : nat)
  | Bind (f : Callback) (arg : option JsError).

(** An optional error argument: [None] is [undefined] or [null]. *)
Abbreviation Err := (option JsError).

(** [cb || noop] *)
Definition or_noop (cb : option Callback) : Callback :=
  match cb with
  | Some f => f
  | None => Noop
  end.

(** ** Watchdog timers ([timeout-refresh])

    [timer(ms, fn, ctx)] returns an object with [refresh()] and [destroy()].
    The library is an external collaborator; the record follows its
    contract: a timer fires [fn] at most once unless it is destroyed first,
    [destroy()] clears the callback and is idempotent, and [refresh()]
    re-arms the delay unless the timer has fired or was destroyed.  Time is
    not modelled: an armed timer may fire at any moment, and [refreshed]
    counts the times the delay was re-armed. *)

(** The two functions the sessions install: [this.onTimeout] and
    [this.onHeartbeat]. *)
Inductive TimerFn : Type :=
  | OnTimeout
  | OnHeartbeat.

Record Watchdog : Type := mkWatchdog {
  ms : JsValue;
  ontimeout : option TimerFn;
  called : bool;
  refreshed : nat
}.

(** Timers and streams are named by the order of their creation. *)
Abbreviation TimerId := nat.
Abbreviation StreamHandle := nat.

Definition wd_destroyed (t : Watchdog) : bool :=
  match ontimeout t with
  | Some _ => false
  | None => true
  end.

Definition wd_armed (t : Watchdog) : bool :=
  negb (wd_destroyed t) && negb (called t).

Definition wd_refresh (t : Watchdog) : Watchdog :=
  if called t || wd_destroyed t then t
  else mkWatchdog (ms t) (ontimeout t) (called t) (S (refreshed t)).

Definition wd_destroy (t : Watchdog) : Watchdog :=
  mkWatchdog (ms t) None (called t) (refreshed t).

Definition wd_call (t : Watchdog) : Watchdog :=
  mkWatchdog (ms t) (ontimeout t) true (refreshed t).

(** ** The session object *)

Inductive ProtocolClass : Type :=
  | SyncProtocol
  | UpgradeProtocol.

Record Session : Type := mkSession {
  class : ProtocolClass;
  deviceName : option string;
  deviceType : option string;
  timeoutMs : JsValue;
  rpcStream : option StreamHandle;
  timeout : option TimerId;
  heartbeat : option TimerId
}.

Record Opts : Type := mkOpts {
  opt_timeout : JsValue;
  opt_deviceName : option string;
  opt_deviceType : option string
}.

(** [{}] *)
Definition no_opts : Opts := mkOpts JsUndefined None None.

(** The constructors.  [inr e] is [throw e]. *)
Definition new_SyncProtocol (opts : option Opts) : Session + JsError :=
  let opts := default no_opts opts in
  let timeoutMs := js_or (opt_timeout opts) (JsNum (Int 20000)) in
  if negb (truthy_str (opt_deviceName opts))
  then inr (Error "must specify opts.deviceName")
  else if negb (truthy_str (opt_deviceType opts))
  then inr (Error "must specify opts.deviceType")
  else inl (mkSession SyncProtocol (opt_deviceName opts) (opt_deviceType opts)
              timeoutMs None None None).

Definition new_UpgradeProtocol (opts : option Opts) : Session + JsError :=
  let opts := default no_opts opts in
  let timeoutMs := js_or (opt_timeout opts) (JsNum (Int 20000)) in
  inl (mkSession UpgradeProtocol None None timeoutMs None None None).

Definition new (c : ProtocolClass) (opts : option Opts) : Session + JsError :=
  match c with
  | SyncProtocol => new_SyncProtocol opts
  | UpgradeProtocol => new_UpgradeProtocol opts
  end.

(** ** The transport binding ([muxrpc])

    The binding is an external collaborator.  The session uses three of its
    entry points: [rpc.createStream(onClose)], [rpc.Heartbeat(cb)] and
    [rpc.close(err, cb)].  Its state, as far as the session can tell: the
    stream it is bound to with the caller's callback captured by the closure
    handed to [createStream]; whether a close of that stream was requested;
    the close requests not yet completed, each with its reason and
    continuation; the number of outbound [Heartbeat] calls without a reply;
    the number of streams handed out so far. *)
Record Transport : Type := mkTransport {
  bound : option (StreamHandle * Callback);
  closing : bool;
  closeReqs : list (Err * Callback);
  inflight : nat;
  streams : nat
}.

(** ** The log of calls to collaborators *)
Inductive Action : Type :=
  | TimerCreate (id : TimerId) (delay : JsValue) (fn : TimerFn)
  | TimerRefresh (id : TimerId)
  | TimerDestroy (id : TimerId)
  | RpcCreateStream (h : StreamHandle)
  | RpcHeartbeat
  | RpcClose (err : Err) (k : Callback)
  | NextTick (cb : Callback)
  | Call (name : nat) (args : list Err).

Record World : Type := mkWorld {
  this : Session;
  timers : list Watchdog;
  rpc : Transport;
  ticks : list Callback;
  trace : list Action
}.

Definition initWorld (s : Session) : World :=
  mkWorld s [] (mkTransport None false [] 0 0) [] [].

(** ** Computations *)

Inductive Outcome (A : Type) : Type :=
  | Returned (a : A) (w : World)
  | Thrown (e : JsError) (w : World).
Arguments Returned {A} a w.
Arguments Thrown {A} e w.

Definition world_of {A} (o : Outcome A) : World :=
  match o with
  | Returned _ w => w
  | Thrown _ w => w
  end.

Definition M (A : Type) : Type := World -> Outcome A.

Definition ret {A} (a : A) : M A := fun w => Returned a w.

Definition throw {A} (e : JsError) : M A := fun w => Thrown e w.

Definition bind {A B} (m : M A) (k : A -> M B) : M B :=
  fun w =>
    match m w with
    | Returned a w' => k a w'
    | Thrown e w' => Thrown e w'
    end.

#[global] Instance M_ret : MRet M := @ret.
#[global] Instance M_bind : MBind M := fun A B k m => bind m k.

Definition get_this : M Session := fun w => Returned (this w) w.

Definition set_this (f : Session -> Session) : M unit :=
  fun w => Returned tt (mkWorld (f (this w)) (timers w) (rpc w) (ticks w) (trace w)).

Definition set_timers (f : list Watchdog -> list Watchdog) : M unit :=
  fun w => Returned tt (mkWorld (this w) (f (timers w)) (rpc w) (ticks w) (trace w)).

Definition set_rpc (f : Transport -> Transport) : M unit :=
  fun w => Returned tt (mkWorld (this w) (timers w) (f (rpc w)) (ticks w) (trace w)).

Definition set_ticks (f : list Callback -> list Callback) : M unit :=
  fun w => Returned tt (mkWorld (this w) (timers w) (rpc w) (f (ticks w)) (trace w)).

Definition emit (l : list Action) : M unit :=
  fun w => Returned tt (mkWorld (this w) (timers w) (rpc w) (ticks w) (trace w ++ l)).

(** Field assignments. *)
Definition with_rpcStream (v : option StreamHandle) (s : Session) : Session :=
  mkSession (class s) (deviceName s) (deviceType s) (timeoutMs s) v (timeout s) (heartbeat s).

Definition with_timeout (v : option TimerId) (s : Session) : Session :=
  mkSession (class s) (deviceName s) (deviceType s) (timeoutMs s) (rpcStream s) v (heartbeat s).

Definition with_heartbeat (v : option TimerId) (s : Session) : Session :=
  mkSession (class s) (deviceName s) (deviceType s) (timeoutMs s) (rpcStream s) (timeout s) v.

(** Calling a callback with the given arguments. *)
Fixpoint calls (cb : Callback) (args : list Err) : list Action :=
  match cb with
  | Noop => []
  | Fn n => [Call n args]
  | Bind f a => calls f (a :: args)
  end.

Definition invoke (cb : Callback) (args : list Err) : M unit :=
  emit (calls cb args).

(** [process.nextTick(cb)] *)
Definition nextTick (cb : Callback) : M unit :=
  set_ticks (fun q => q ++ [cb]) ;; emit [NextTick cb].

(** *** Timer operations *)

(** [timer(ms, fn, this)] *)
Definition timer (delay : JsValue) (fn : TimerFn) : M TimerId :=
  fun w =>
    let id := length (timers w) in
    (set_timers (fun ts => ts ++ [mkWatchdog delay (Some fn) false 0]) ;;
     emit [TimerCreate id delay fn] ;;
     ret id) w.

Definition on_timer (f : Watchdog -> Watchdog) (id : TimerId) : M unit :=
  set_timers (fun ts =>
    match ts !! id with
    | Some t => <[id := f t]> ts
    | None => ts
    end).

(** [o.refresh()] where [o] is the value of a timer field: a [TypeError] when
    the field holds [null]. *)
Definition refresh (field : option TimerId) : M unit :=
  match field with
  | Some id => emit [TimerRefresh id] ;; on_timer wd_refresh id
  | None => throw (TypeError "Cannot read property 'refresh' of null")
  end.

(** [o.destroy()] *)
Definition destroy (field : option TimerId) : M unit :=
  match field with
  | Some id => emit [TimerDestroy id] ;; on_timer wd_destroy id
  | None => throw (TypeError "Cannot read property 'destroy' of null")
  end.

(** *** Transport operations *)

(** [this.rpc.createStream(onClose)], where [onClose] is the closure that
    captures [cb].  The model hands out a stream at every call.  A [muxrpc]
    instance hands out one stream only, and the session builds its instance
    once, in the constructor: the worlds in which a second stream was asked
    for go beyond what the program reaches. *)
Definition rpc_createStream (cb : Callback) : M StreamHandle :=
  fun w =>
    let h := streams (rpc w) in
    (set_rpc (fun r => mkTransport (Some (h, cb)) false (closeReqs r) (inflight r) (S h)) ;;
     emit [RpcCreateStream h] ;;
     ret h) w.

(** [this.rpc.Heartbeat(cb)] *)
Definition rpc_Heartbeat : M unit :=
  set_rpc (fun r => mkTransport (bound r) (closing r) (closeReqs r) (S (inflight r)) (streams r)) ;;
  emit [RpcHeartbeat].

(** [this.rpc.close(err, k)]: the request is recorded, and the stream, if
    there is one, is closing from now on.  The completion of the request is
    an event of its own ([EvCloseDone] below), whether the transport gets to
    it within the call, as [muxrpc] does for a close with a reason, or
    later; what the properties say of a completed close holds in both
    cases, what they say of the time between the request and its completion
    holds for a transport that completes later. *)
Definition rpc_close (err : Err) (k : Callback) : M unit :=
  set_rpc (fun r => mkTransport (bound r)
                      (match bound r with Some _ => true | None => false end)
                      (closeReqs r ++ [(err, k)]) (inflight r) (streams r)) ;;
  emit [RpcClose err k].

(** ** The methods *)

(** [rpcHeartbeat (cb)] *)
Definition rpcHeartbeat (cb : Callback) : M unit :=
  s ← get_this; refresh (timeout s) ;;
  s ← get_this; refresh (heartbeat s) ;;
  invoke cb [].

(** What [createStream] returns: [false], or the value of [this.rpcStream]. *)
Inductive CreateStreamResult : Type :=
  | RetFalse
  | RetStream (h : option StreamHandle).

(** [createStream (cb)] *)
Definition createStream (cb : option Callback) : M CreateStreamResult :=
  s ← get_this;
  match rpcStream s with
  | Some _ => ret RetFalse
  | None =>
      let cb := or_noop cb in
      h ← rpc_createStream cb;
      set_this (with_rpcStream (Some h)) ;;
      s ← get_this;
      t ← timer (timeoutMs s) OnTimeout;
      set_this (with_timeout (Some t)) ;;
      s ← get_this;
      t ← timer (floor_half (timeoutMs s)) OnHeartbeat;
      set_this (with_heartbeat (Some t)) ;;
      s ← get_this;
      ret (RetStream (rpcStream s))
  end.

(** [onRpcClose (err)] *)
Definition onRpcClose (err : Err) : M unit :=
  s ← get_this; destroy (timeout s) ;;
  s ← get_this; destroy (heartbeat s) ;;
  set_this (with_rpcStream None) ;;
  set_this (with_timeout None) ;;
  set_this (with_heartbeat None).

(** The closure [err => { this.onRpcClose(err); cb(err) }] that
    [createStream] hands to the transport. *)
Definition streamClosed (cb : Callback) (err : Err) : M unit :=
  onRpcClose err ;;
  invoke cb [err].

(** [close (err, cb)] *)
Definition close (err : Err) (cb : option Callback) : M unit :=
  let cb := or_noop cb in
  s ← get_this;
  match rpcStream s with
  | Some _ =>
      destroy (timeout s) ;;
      s ← get_this; destroy (heartbeat s) ;;
      rpc_close err (Bind cb err)
  | None =>
      nextTick cb
  end.

(** [onTimeout ()] *)
Definition remote_timeout : JsError := Error "remote timeout".

Definition onTimeout : M unit :=
  close (Some remote_timeout) None.

(** The closure [(err) => { if (err) return; ... }] that [onHeartbeat] hands
    to [this.rpc.Heartbeat]. *)
Definition heartbeatReply (err : Err) : M unit :=
  match err with
  | Some _ => ret tt
  | None =>
      s ← get_this; refresh (timeout s) ;;
      s ← get_this; refresh (heartbeat s)
  end.

(** [onHeartbeat ()] *)
Definition onHeartbeat : M unit :=
  s ← get_this; destroy (heartbeat s) ;;
  s ← get_this;
  t ← timer (floor_half (timeoutMs s)) OnHeartbeat;
  set_this (with_heartbeat (Some t)) ;;
  rpc_Heartbeat.

(** ** The event loop

    What can happen to a session, one event at a time: the caller invokes
    [createStream] or [close]; a [Heartbeat] request reaches the local
    handler; an armed timer fires; the reply to an outbound [Heartbeat]
    arrives; the transport reports that the stream ended; a requested close
    completes; a [nextTick] callback runs. *)
Inductive Event : Type :=
  | EvCreateStream (cb : option Callback)
  | EvClose (err : Err) (cb : option Callback)
  | EvHeartbeatRequest (cb : Callback)
  | EvTimer (id : TimerId)
  | EvHeartbeatReply (err : Err)
  | EvTransportEnd (err : Err)
  | EvCloseDone
  | EvTick.

(** A reply needs a call in flight, and a successful reply needs the stream:
    when a stream ends the transport fails the calls in flight, and it
    answers none of them with success afterwards. *)
Definition reply_possible (err : Err) (r : Transport) : bool :=
  match err with
  | Some _ => true
  | None =>
      match bound r with
      | Some _ => true
      | None => false
      end
  end.

(** [self.ontimeout.call(self.context)] *)
Definition dispatch (fn : TimerFn) : M unit :=
  match fn with
  | OnTimeout => onTimeout
  | OnHeartbeat => onHeartbeat
  end.

(** The transport lets go of the stream.  The calls in flight are failed,
    each by a reply with an error ([EvHeartbeatReply (Some _)]). *)
Definition unbind : M unit :=
  set_rpc (fun r => mkTransport None false (closeReqs r) (inflight r) (streams r)).

(** The transport reports the end of the stream, if it still holds one, to
    the closure it was given. *)
Definition report_end (err : Err) : M unit :=
  fun w =>
    match bound (rpc w) with
    | Some (_, cb) => (unbind ;; streamClosed cb err) w
    | None => Returned tt w
    end.

(** [step e w] is [None] when [e] cannot happen in [w]. *)
Definition step (e : Event) (w : World) : option (Outcome unit) :=
  match e with
  | EvCreateStream cb => Some ((createStream cb ;; ret tt) w)
  | EvClose err cb => Some (close err cb w)
  | EvHeartbeatRequest cb => Some (rpcHeartbeat cb w)
  | EvTimer id =>
      match timers w !! id with
      | Some t =>
          match ontimeout t with
          | Some fn =>
              if called t then None
              else Some ((on_timer wd_call id ;; dispatch fn) w)
          | None => None
          end
      | None => None
      end
  | EvHeartbeatReply err =>
      match inflight (rpc w) with
      | O => None
      | S n =>
          if reply_possible err (rpc w) then
            Some ((set_rpc (fun r => mkTransport (bound r) (closing r) (closeReqs r) n (streams r)) ;;
                   heartbeatReply err) w)
          else None
      end
  | EvTransportEnd err =>
      match bound (rpc w) with
      | Some _ => Some (report_end err w)
      | None => None
      end
  | EvCloseDone =>
      match closeReqs (rpc w) with
      | (reason, k) :: rest =>
          Some ((set_rpc (fun r => mkTransport (bound r) (closing r) rest (inflight r) (streams r)) ;;
                 report_end reason ;;
                 invoke k []) w)
      | [] => None
      end
  | EvTick =>
      match ticks w with
      | cb :: rest => Some ((set_ticks (fun _ => rest) ;; invoke cb []) w)
      | [] => None
      end
  end.

(** Running a list of events; [None] when one of them cannot happen. *)
Fixpoint run (es : list Event) (w : World) : option World :=
  match es with
  | [] => Some w
  | e :: es' =>
      match step e w with
      | Some o => run es' (world_of o)
      | None => None
      end
  end.

(** The worlds a session can be in: those reached from a freshly
    constructed session by events that can happen. *)
Inductive reachable : World -> Prop :=
  | reachable_new c opts s :
      new c opts = inl s -> reachable (initWorld s)
  | reachable_step e w o :
      reachable w -> step e w = Some o -> reachable (world_of o).

(** ** Life-cycle states

    The states are not stored; they are read off the session and its
    transport.  Without a stream the session is [Unconnected] before its
    first stream and [Closed] after; with a stream it is [Active] until a
    close is requested and [Closing] from then on. *)
Inductive Phase : Type :=
  | Unconnected
  | Active
  | Closing
  | Closed.

Definition phase (w : World) : Phase :=
  match rpcStream (this w) with
  | Some _ => if closing (rpc w) then Closing else Active
  | None =>
      match streams (rpc w) with
      | O => Unconnected
      | S _ => Closed
      end
  end.

(** A timer field holds a watchdog that exists: it was created and has not
    been destroyed. *)
Definition exists_wd (field : option TimerId) (w : World) : bool :=
  match field with
  | Some id =>
      match timers w !! id with
      | Some t => negb (wd_destroyed t)
      | None => false
      end
  | None => false
  end.

(** The events by which the transport reports the end of the stream. *)
Definition ends_stream (e : Event) : bool :=
  match e with
  | EvTransportEnd _ => true
  | EvCloseDone => true
  | _ => false
  end.

(** ** The invariant of the event loop *)

(** In every world the session gets into, either it has no stream, no timer
    field is set, the transport holds no stream and every timer of the store
    is destroyed; or it has the stream the transport holds, the two timer
    fields are set to distinct timers of the store with the delays of
    [createStream], every other timer is destroyed, and the two timers are
    both armed when no close was requested and both destroyed otherwise. *)
Inductive Inv (w : World) : Prop :=
  | Inv_idle :
      rpcStream (this w) = None ->
      timeout (this w) = None ->
      heartbeat (this w) = None ->
      bound (rpc w) = None ->
      closing (rpc w) = false ->
      (forall id x, timers w !! id = Some x -> ontimeout x = None) ->
      Inv w
  | Inv_bound h cb t hb wt whb :
      rpcStream (this w) = Some h ->
      timeout (this w) = Some t ->
      heartbeat (this w) = Some hb ->
      bound (rpc w) = Some (h, cb) ->
      t <> hb ->
      timers w !! t = Some wt ->
      timers w !! hb = Some whb ->
      ms wt = timeoutMs (this w) ->
      ms whb = floor_half (timeoutMs (this w)) ->
      (if closing (rpc w)
       then ontimeout wt = None /\ ontimeout whb = None
       else ontimeout wt = Some OnTimeout /\ called wt = false /\
            ontimeout whb = Some OnHeartbeat /\ called whb = false) ->
      (forall id x, timers w !! id = Some x -> id <> t -> id <> hb ->
                    ontimeout x = None) ->
      Inv w.

(** What the invariant says of an Active session. *)
Record ActiveView (w : World) (h : StreamHandle) (cb : Callback)
    (t hb : TimerId) (wt whb : Watchdog) : Prop := {
  av_stream : rpcStream (this w) = Some h;
  av_bound : bound (rpc w) = Some (h, cb);
  av_closing : closing (rpc w) = false;
  av_timeout : timeout (this w) = Some t;
  av_heartbeat : heartbeat (this w) = Some hb;
  av_distinct : t <> hb;
  av_wt : timers w !! t = Some wt;
  av_whb : timers w !! hb = Some whb;
  av_wt_ms : ms wt = timeoutMs (this w);
  av_whb_ms : ms whb = floor_half (timeoutMs (this w));
  av_wt_fn : ontimeout wt = Some OnTimeout;
  av_wt_called : called wt = false;
  av_whb_fn : ontimeout whb = Some OnHeartbeat;
  av_whb_called : called whb = false
}.

(** ** Sample worlds *)

(** A freshly constructed minimal session, and the same session after
    [createStream(f0)]. *)
Definition fresh : World :=
  initWorld (mkSession UpgradeProtocol None None (JsNum (Int 20000)) None None None).

Definition streaming : World :=
  mkWorld
    (mkSession UpgradeProtocol None None (JsNum (Int 20000)) (Some 0%nat) (Some 0%nat) (Some 1%nat))
    [mkWatchdog (JsNum (Int 20000)) (Some OnTimeout) false 0;
     mkWatchdog (JsNum (Int 10000)) (Some OnHeartbeat) false 0]
    (mkTransport (Some (0%nat, Fn 0)) false [] 0 1)
    []
    [RpcCreateStream 0; TimerCreate 0 (JsNum (Int 20000)) OnTimeout;
     TimerCreate 1 (JsNum (Int 10000)) OnHeartbeat].

(** The minimal session after [createStream(f0)], one firing of the
    heartbeat watchdog and [close()]: a heartbeat call is in flight and the
    transport has not completed the close. *)
Definition closing_inflight : World :=
  Eval vm_compute in
    default fresh
      (run [EvCreateStream (Some (Fn 0)); EvTimer 1; EvClose None None] fresh).

(** ** Peer information *)

(** [const PROTOCOL_VERSION] of each file. *)
Definition PROTOCOL_VERSION (c : ProtocolClass) : string :=
  match c with
  | SyncProtocol => "6.0.0"
  | UpgradeProtocol => "1.0.0"
  end.

(** The object [rpcGetPeerInfo] answers with.  A device field is [None]
    when the object has no such key or the key holds [undefined]. *)
Record PeerInfo : Type := mkPeerInfo {
  protocolVersion : string;
  info_deviceName : option string;
  info_deviceType : option string
}.

(** [rpcGetPeerInfo (cb)]: the method does nothing but call [cb] with
    [null] and the object, so the callback is taken as a continuation.  The
    identifying class reads the two device fields of the session, the
    minimal class answers with the version alone. *)
Definition rpcGetPeerInfo {R : Type} (cb : Err -> PeerInfo -> R) (s : Session) : R :=
  match class s with
  | SyncProtocol =>
      cb None (mkPeerInfo (PROTOCOL_VERSION SyncProtocol) (deviceName s) (deviceType s))
  | UpgradeProtocol =>
      cb None (mkPeerInfo (PROTOCOL_VERSION UpgradeProtocol) None None)
  end.

(** ** Observations on runs *)

(** The calls of the caller's functions recorded in a log. *)
Definition is_call (a : Action) : bool :=
  match a with
  | Call _ _ => true
  | _ => false
  end.

Definition user_calls (tr : list Action) : list Action :=
  List.filter is_call tr.

(** The watchdog a timer field holds fires. *)
Definition fire (field : option TimerId) (w : World) : option World :=
  match field with
  | Some id =>
      match step (EvTimer id) w with
      | Some o => Some (world_of o)
      | None => None
      end
  | None => None
  end.

(** The heartbeat watchdog fires [n] times in a row, each time the one the
    heartbeat field holds then. *)
Fixpoint beats (n : nat) (w : World) : option World :=
  match n with
  | O => Some w
  | S n' =>
      match fire (heartbeat (this w)) w with
      | Some w' => beats n' w'
      | None => None
      end
  end.

(** An identifying session built with [{ timeout: 100, deviceName: 'test
    device', deviceType: 'mobile' }], and the world it is in after
    [createStream()], one firing of the heartbeat watchdog, [close()] and
    the completion of the close. *)
Definition sync_opts : Opts :=
  mkOpts (JsNum (Int 100)) (Some "test device") (Some "mobile").

Definition sync_session : Session :=
  mkSession SyncProtocol (Some "test device") (Some "mobile") (JsNum (Int 100))
    None None None.

Definition sync_closed : World :=
  Eval vm_compute in
    default (initWorld sync_session)
      (run [EvCreateStream None; EvTimer 1; EvClose None None; EvCloseDone]
         (initWorld sync_session)).


(** Two sessions with the same configuration: class, identity and
    [timeoutMs]. *)
Definition same_config (s s' : Session) : Prop :=
  class s' = class s /\ deviceName s' = deviceName s /\
  deviceType s' = deviceType s /\ timeoutMs s' = timeoutMs s.

(** * Properties *)

(** ** Equations of the methods

    Each method is run on a world given by its fields; what is left of the
    computation after a step is evaluated, and the next timer lookup is
    rewritten with what is known of the store. *)

Ltac mred :=
  cbv beta iota zeta delta
    [mbind M_bind bind mret M_ret ret throw get_this set_this set_timers
     set_rpc set_ticks emit invoke nextTick on_timer timer refresh destroy
     rpc_createStream rpc_Heartbeat rpc_close
     with_rpcStream with_timeout with_heartbeat
     this timers rpc ticks trace
     class deviceName deviceType timeoutMs rpcStream timeout heartbeat
     bound closing closeReqs inflight streams].

(** The same, on a world that is not given by its fields. *)
Ltac mred0 :=
  cbv beta iota zeta delta
    [mbind M_bind bind mret M_ret ret throw get_this set_this set_timers
     set_rpc set_ticks emit invoke nextTick world_of].

Ltac fields :=
  cbn [this timers rpc ticks trace
       class deviceName deviceType timeoutMs rpcStream timeout heartbeat
       bound closing closeReqs inflight streams] in *.

Ltac gfields :=
  cbn [this timers rpc ticks trace
       class deviceName deviceType timeoutMs rpcStream timeout heartbeat
       bound closing closeReqs inflight streams].

Ltac open_world w :=
  destruct w as [[? ? ? ? ? ? ?] ? [? ? ? ? ?] ? ?]; fields; subst.

Lemma lookup_insert_other (ts : list Watchdog) (i j : TimerId) (x y : Watchdog) :
  i <> j -> ts !! j = Some y -> <[i := x]> ts !! j = Some y.
Proof.
  intros Hne Hj. rewrite list_lookup_insert_ne; done.
Qed.

Lemma lookup_insert_same (ts : list Watchdog) (i : TimerId) (x y : Watchdog) :
  ts !! i = Some y -> <[i := x]> ts !! i = Some x.
Proof.
  intros Hi. apply list_lookup_insert_eq. eapply lookup_lt_Some; eauto.
Qed.

(** Side conditions on the store after an update. *)
Ltac store := gfields; eauto using lookup_insert_same, lookup_insert_other.

Lemma on_timer_some (w : World) (f : Watchdog -> Watchdog) (id : TimerId) (x : Watchdog) :
  timers w !! id = Some x ->
  on_timer f id w =
    Returned tt (mkWorld (this w) (<[id := f x]> (timers w)) (rpc w) (ticks w) (trace w)).
Proof.
  intros H. open_world w. mred. rewrite H. reflexivity.
Qed.

Lemma createStream_bound (w : World) (cb : option Callback) (h : StreamHandle) :
  rpcStream (this w) = Some h ->
  createStream cb w = Returned RetFalse w.
Proof.
  intros H. open_world w. reflexivity.
Qed.

Lemma createStream_idle (w : World) (cb : option Callback) :
  rpcStream (this w) = None ->
  createStream cb w =
    Returned (RetStream (Some (streams (rpc w))))
      (mkWorld
         (mkSession (class (this w)) (deviceName (this w)) (deviceType (this w))
            (timeoutMs (this w))
            (Some (streams (rpc w))) (Some (length (timers w)))
            (Some (S (length (timers w)))))
         (timers w ++
            [mkWatchdog (timeoutMs (this w)) (Some OnTimeout) false 0;
             mkWatchdog (floor_half (timeoutMs (this w))) (Some OnHeartbeat) false 0])
         (mkTransport (Some (streams (rpc w), or_noop cb)) false (closeReqs (rpc w))
            (inflight (rpc w)) (S (streams (rpc w))))
         (ticks w)
         (trace w ++
            [RpcCreateStream (streams (rpc w));
             TimerCreate (length (timers w)) (timeoutMs (this w)) OnTimeout;
             TimerCreate (S (length (timers w))) (floor_half (timeoutMs (this w)))
               OnHeartbeat])).
Proof.
  intros H. open_world w. unfold createStream. mred.
  rewrite length_app. cbn [length]. rewrite Nat.add_1_r.
  rewrite <- !app_assoc. reflexivity.
Qed.

Lemma close_idle (w : World) (err : Err) (cb : option Callback) :
  rpcStream (this w) = None ->
  close err cb w =
    Returned tt (mkWorld (this w) (timers w) (rpc w) (ticks w ++ [or_noop cb])
                   (trace w ++ [NextTick (or_noop cb)])).
Proof.
  intros H. open_world w. reflexivity.
Qed.

Lemma heartbeatReply_failure (w : World) (e : JsError) :
  heartbeatReply (Some e) w = Returned tt w.
Proof. reflexivity. Qed.

Lemma rpcHeartbeat_null (w : World) (cb : Callback) :
  timeout (this w) = None ->
  rpcHeartbeat cb w =
    Thrown (TypeError "Cannot read property 'refresh' of null") w.
Proof.
  intros H. open_world w. reflexivity.
Qed.

Lemma heartbeatReply_null (w : World) :
  timeout (this w) = None ->
  heartbeatReply None w =
    Thrown (TypeError "Cannot read property 'refresh' of null") w.
Proof.
  intros H. open_world w. reflexivity.
Qed.

(** With both timer fields set, to distinct timers of the store. *)

Lemma close_bound (w : World) (t hb : TimerId) (wt whb : Watchdog) :
  timeout (this w) = Some t ->
  heartbeat (this w) = Some hb ->
  t <> hb ->
  timers w !! t = Some wt ->
  timers w !! hb = Some whb ->
  forall (err : Err) (cb : option Callback) (h : StreamHandle),
  rpcStream (this w) = Some h ->
  close err cb w =
    Returned tt
      (mkWorld (this w)
         (<[hb := wd_destroy whb]> (<[t := wd_destroy wt]> (timers w)))
         (mkTransport (bound (rpc w))
            (match bound (rpc w) with Some _ => true | None => false end)
            (closeReqs (rpc w) ++ [(err, Bind (or_noop cb) err)])
            (inflight (rpc w)) (streams (rpc w)))
         (ticks w)
         (trace w ++ [TimerDestroy t; TimerDestroy hb;
                      RpcClose err (Bind (or_noop cb) err)])).
Proof.
  intros Ht Hhb Hne Hwt Hwhb err cb h Hs. open_world w.
  unfold close. mred. rewrite Hwt. mred.
  rewrite (lookup_insert_other _ t hb _ whb Hne Hwhb). mred.
  rewrite <- !app_assoc. reflexivity.
Qed.

Lemma onRpcClose_bound (w : World) (t hb : TimerId) (wt whb : Watchdog) :
  timeout (this w) = Some t ->
  heartbeat (this w) = Some hb ->
  t <> hb ->
  timers w !! t = Some wt ->
  timers w !! hb = Some whb ->
  forall err : Err,
  onRpcClose err w =
    Returned tt
      (mkWorld
         (mkSession (class (this w)) (deviceName (this w)) (deviceType (this w))
            (timeoutMs (this w)) None None None)
         (<[hb := wd_destroy whb]> (<[t := wd_destroy wt]> (timers w)))
         (rpc w) (ticks w)
         (trace w ++ [TimerDestroy t; TimerDestroy hb])).
Proof.
  intros Ht Hhb Hne Hwt Hwhb err. open_world w.
  unfold onRpcClose. mred. rewrite Hwt. mred.
  rewrite (lookup_insert_other _ t hb _ whb Hne Hwhb). mred.
  rewrite <- !app_assoc. reflexivity.
Qed.

Lemma rpcHeartbeat_bound (w : World) (t hb : TimerId) (wt whb : Watchdog) :
  timeout (this w) = Some t ->
  heartbeat (this w) = Some hb ->
  t <> hb ->
  timers w !! t = Some wt ->
  timers w !! hb = Some whb ->
  forall cb : Callback,
  rpcHeartbeat cb w =
    Returned tt
      (mkWorld (this w)
         (<[hb := wd_refresh whb]> (<[t := wd_refresh wt]> (timers w)))
         (rpc w) (ticks w)
         (trace w ++ [TimerRefresh t; TimerRefresh hb] ++ calls cb [])).
Proof.
  intros Ht Hhb Hne Hwt Hwhb cb. open_world w.
  unfold rpcHeartbeat. mred. rewrite Hwt. mred.
  rewrite (lookup_insert_other _ t hb _ whb Hne Hwhb). mred.
  rewrite <- !app_assoc. reflexivity.
Qed.

Lemma heartbeatReply_bound (w : World) (t hb : TimerId) (wt whb : Watchdog) :
  timeout (this w) = Some t ->
  heartbeat (this w) = Some hb ->
  t <> hb ->
  timers w !! t = Some wt ->
  timers w !! hb = Some whb ->
  heartbeatReply None w =
    Returned tt
      (mkWorld (this w)
         (<[hb := wd_refresh whb]> (<[t := wd_refresh wt]> (timers w)))
         (rpc w) (ticks w)
         (trace w ++ [TimerRefresh t; TimerRefresh hb])).
Proof.
  intros Ht Hhb Hne Hwt Hwhb. open_world w.
  unfold heartbeatReply. mred. rewrite Hwt. mred.
  rewrite (lookup_insert_other _ t hb _ whb Hne Hwhb). mred.
  rewrite <- !app_assoc. reflexivity.
Qed.

Lemma onHeartbeat_bound (w : World) (hb : TimerId) (whb : Watchdog) :
  heartbeat (this w) = Some hb ->
  timers w !! hb = Some whb ->
  onHeartbeat w =
    Returned tt
      (mkWorld
         (mkSession (class (this w)) (deviceName (this w)) (deviceType (this w))
            (timeoutMs (this w)) (rpcStream (this w)) (timeout (this w))
            (Some (length (timers w))))
         (<[hb := wd_destroy whb]> (timers w) ++
            [mkWatchdog (floor_half (timeoutMs (this w))) (Some OnHeartbeat) false 0])
         (mkTransport (bound (rpc w)) (closing (rpc w)) (closeReqs (rpc w))
            (S (inflight (rpc w))) (streams (rpc w)))
         (ticks w)
         (trace w ++ [TimerDestroy hb;
                      TimerCreate (length (timers w)) (floor_half (timeoutMs (this w)))
                        OnHeartbeat;
                      RpcHeartbeat])).
Proof.
  intros Hhb Hwhb. open_world w.
  unfold onHeartbeat. mred. rewrite Hwhb. mred.
  rewrite length_insert. rewrite <- !app_assoc. reflexivity.
Qed.

(** The events, on a session with both timer fields set. *)

Lemma report_end_bound (w : World) (t hb : TimerId) (wt whb : Watchdog) :
  timeout (this w) = Some t ->
  heartbeat (this w) = Some hb ->
  t <> hb ->
  timers w !! t = Some wt ->
  timers w !! hb = Some whb ->
  forall (err : Err) (h : StreamHandle) (cb : Callback),
  bound (rpc w) = Some (h, cb) ->
  report_end err w =
    Returned tt
      (mkWorld
         (mkSession (class (this w)) (deviceName (this w)) (deviceType (this w))
            (timeoutMs (this w)) None None None)
         (<[hb := wd_destroy whb]> (<[t := wd_destroy wt]> (timers w)))
         (mkTransport None false (closeReqs (rpc w)) (inflight (rpc w))
            (streams (rpc w)))
         (ticks w)
         (trace w ++ [TimerDestroy t; TimerDestroy hb] ++ calls cb [err])).
Proof.
  intros Ht Hhb Hne Hwt Hwhb err h cb Hb. open_world w.
  unfold report_end, unbind, streamClosed, onRpcClose. mred. rewrite Hwt. mred.
  rewrite (lookup_insert_other _ t hb _ whb Hne Hwhb). mred.
  rewrite <- !app_assoc. reflexivity.
Qed.

Lemma report_end_unbound (w : World) (err : Err) :
  bound (rpc w) = None -> report_end err w = Returned tt w.
Proof.
  intros Hb. unfold report_end. rewrite Hb. reflexivity.
Qed.

Lemma step_timer (w : World) (id : TimerId) (x : Watchdog) (fn : TimerFn) :
  timers w !! id = Some x -> ontimeout x = Some fn -> called x = false ->
  step (EvTimer id) w =
    Some (dispatch fn
            (mkWorld (this w) (<[id := wd_call x]> (timers w)) (rpc w) (ticks w)
               (trace w))).
Proof.
  intros Hx Hfn Hc. unfold step. rewrite Hx, Hfn, Hc.
  unfold mbind, M_bind, bind. rewrite (on_timer_some w wd_call id x Hx).
  reflexivity.
Qed.


Lemma step_closeDone (w : World) (reason : Err) (k : Callback)
    (rest : list (Err * Callback)) :
  closeReqs (rpc w) = (reason, k) :: rest ->
  step EvCloseDone w =
    Some ((report_end reason ;; invoke k [])
            (mkWorld (this w) (timers w)
               (mkTransport (bound (rpc w)) (closing (rpc w)) rest (inflight (rpc w))
                  (streams (rpc w)))
               (ticks w) (trace w))).
Proof.
  intros Hq. unfold step. rewrite Hq. reflexivity.
Qed.

Lemma step_tick (w : World) (cb : Callback) (rest : list Callback) :
  ticks w = cb :: rest ->
  step EvTick w =
    Some (Returned tt
            (mkWorld (this w) (timers w) (rpc w) rest (trace w ++ calls cb []))).
Proof.
  intros Hq. unfold step. rewrite Hq. reflexivity.
Qed.

(** ** The invariant is kept by every event *)

Lemma wd_refresh_ms (x : Watchdog) : ms (wd_refresh x) = ms x.
Proof. unfold wd_refresh. destruct (called x || wd_destroyed x); reflexivity. Qed.

Lemma wd_refresh_ontimeout (x : Watchdog) : ontimeout (wd_refresh x) = ontimeout x.
Proof. unfold wd_refresh. destruct (called x || wd_destroyed x); reflexivity. Qed.

Lemma wd_refresh_called (x : Watchdog) : called (wd_refresh x) = called x.
Proof. unfold wd_refresh. destruct (called x || wd_destroyed x); reflexivity. Qed.

Lemma wd_refresh_destroyed (x : Watchdog) :
  ontimeout x = None -> wd_refresh x = x.
Proof.
  intros H. unfold wd_refresh, wd_destroyed. rewrite H.
  rewrite orb_true_r. reflexivity.
Qed.

Lemma wd_refresh_armed (x : Watchdog) :
  wd_armed x = true ->
  wd_refresh x = mkWatchdog (ms x) (ontimeout x) (called x) (S (refreshed x)).
Proof.
  unfold wd_armed, wd_refresh. intros H.
  apply andb_true_iff in H as [H1 H2].
  apply negb_true_iff in H1. apply negb_true_iff in H2.
  rewrite H1, H2. reflexivity.
Qed.

(** The invariant does not look at the queues, the counters or the log. *)
Lemma Inv_frame (w w' : World) :
  Inv w ->
  this w' = this w -> timers w' = timers w ->
  bound (rpc w') = bound (rpc w) -> closing (rpc w') = closing (rpc w) ->
  Inv w'.
Proof.
  intros [H1 H2 H3 H4 H5 H6 | h cb t hb wt whb H1 H2 H3 H4 H5 H6 H7 H8 H9 H10 H11]
         Es Et Eb Ec.
  - apply Inv_idle; rewrite ?Es, ?Et, ?Eb, ?Ec; assumption.
  - apply (Inv_bound w' h cb t hb wt whb); rewrite ?Es, ?Et, ?Eb, ?Ec; assumption.
Qed.

Lemma Inv_new (c : ProtocolClass) (opts : option Opts) (s : Session) :
  new c opts = inl s -> Inv (initWorld s).
Proof.
  intros H.
  assert (rpcStream s = None /\ timeout s = None /\ heartbeat s = None)
    as (H1 & H2 & H3).
  { destruct c; simpl in H; unfold new_SyncProtocol, new_UpgradeProtocol in H;
      repeat case_match; simplify_eq; simpl; auto. }
  apply Inv_idle; simpl; try assumption; try reflexivity.
  intros id x Hx. rewrite lookup_nil in Hx. discriminate.
Qed.

Lemma createStream_Inv (w : World) (cb : option Callback) :
  Inv w -> Inv (world_of (createStream cb w)).
Proof.
  intros HI. destruct (rpcStream (this w)) as [h|] eqn:Hs.
  - rewrite (createStream_bound w cb h Hs). exact HI.
  - rewrite (createStream_idle w cb Hs). cbv zeta. simpl.
    destruct HI as [H1 H2 H3 H4 H5 H6 | h cb' t hb wt whb H1]; [|congruence].
    eapply (Inv_bound _ (streams (rpc w)) (or_noop cb) (length (timers w))
              (S (length (timers w)))); simpl; try reflexivity.
    + lia.
    + rewrite lookup_app_r by lia. rewrite Nat.sub_diag. reflexivity.
    + rewrite lookup_app_r by lia.
      replace (S (length (timers w)) - length (timers w))%nat with 1%nat by lia.
      reflexivity.
    + reflexivity.
    + reflexivity.
    + auto.
    + intros id x Hx Hn1 Hn2.
      assert (id < length (timers w))%nat as Hlt.
      { apply lookup_lt_Some in Hx. rewrite length_app in Hx. simpl in Hx. lia. }
      rewrite lookup_app_l in Hx by exact Hlt. eauto.
Qed.

Lemma close_Inv (w : World) (err : Err) (cb : option Callback) :
  Inv w -> Inv (world_of (close err cb w)).
Proof.
  intros HI.
  destruct HI as [H1 H2 H3 H4 H5 H6 | h cb' t hb wt whb H1 H2 H3 H4 H5 H6 H7 H8 H9 H10 H11].
  - rewrite (close_idle w err cb H1). simpl.
    apply Inv_idle; simpl; assumption.
  - rewrite (close_bound w t hb wt whb H2 H3 H5 H6 H7 err cb h H1). simpl.
    apply (Inv_bound _ h cb' t hb (wd_destroy wt) (wd_destroy whb)); simpl;
      try assumption.
    + apply lookup_insert_other; [congruence|].
      eapply lookup_insert_same; eauto.
    + eapply lookup_insert_same. apply lookup_insert_other; eauto.
    + rewrite H4. simpl. auto.
    + intros id x Hx Hn1 Hn2.
      rewrite !list_lookup_insert_ne in Hx by congruence. eauto.
Qed.

Lemma rpcHeartbeat_Inv (w : World) (cb : Callback) :
  Inv w -> Inv (world_of (rpcHeartbeat cb w)).
Proof.
  intros HI.
  destruct HI as [H1 H2 H3 H4 H5 H6 | h cb' t hb wt whb H1 H2 H3 H4 H5 H6 H7 H8 H9 H10 H11].
  - rewrite (rpcHeartbeat_null w cb H2). simpl.
    apply Inv_idle; assumption.
  - rewrite (rpcHeartbeat_bound w t hb wt whb H2 H3 H5 H6 H7 cb). simpl.
    apply (Inv_bound _ h cb' t hb (wd_refresh wt) (wd_refresh whb)); simpl;
      try assumption.
    + apply lookup_insert_other; [congruence|].
      eapply lookup_insert_same; eauto.
    + eapply lookup_insert_same. apply lookup_insert_other; eauto.
    + rewrite wd_refresh_ms. assumption.
    + rewrite wd_refresh_ms. assumption.
    + rewrite !wd_refresh_ontimeout, !wd_refresh_called. assumption.
    + intros id x Hx Hn1 Hn2.
      rewrite !list_lookup_insert_ne in Hx by congruence. eauto.
Qed.

Lemma heartbeatReply_Inv (w : World) (err : Err) :
  Inv w -> Inv (world_of (heartbeatReply err w)).
Proof.
  intros HI. destruct err as [e|]; [exact HI|].
  destruct HI as [H1 H2 H3 H4 H5 H6 | h cb' t hb wt whb H1 H2 H3 H4 H5 H6 H7 H8 H9 H10 H11].
  - rewrite (heartbeatReply_null w H2). simpl.
    apply Inv_idle; assumption.
  - rewrite (heartbeatReply_bound w t hb wt whb H2 H3 H5 H6 H7). simpl.
    apply (Inv_bound _ h cb' t hb (wd_refresh wt) (wd_refresh whb)); simpl;
      try assumption.
    + apply lookup_insert_other; [congruence|].
      eapply lookup_insert_same; eauto.
    + eapply lookup_insert_same. apply lookup_insert_other; eauto.
    + rewrite wd_refresh_ms. assumption.
    + rewrite wd_refresh_ms. assumption.
    + rewrite !wd_refresh_ontimeout, !wd_refresh_called. assumption.
    + intros id x Hx Hn1 Hn2.
      rewrite !list_lookup_insert_ne in Hx by congruence. eauto.
Qed.

Lemma report_end_Inv (w : World) (err : Err) :
  Inv w -> Inv (world_of (report_end err w)).
Proof.
  intros HI. unfold report_end.
  destruct HI as [H1 H2 H3 H4 H5 H6 | h cb' t hb wt whb H1 H2 H3 H4 H5 H6 H7 H8 H9 H10 H11].
  - rewrite H4. simpl. apply Inv_idle; assumption.
  - rewrite H4. unfold unbind, streamClosed.
    unfold mbind, M_bind, bind, set_rpc.
    erewrite (onRpcClose_bound _ t hb wt whb) by (simpl; eauto).
    cbv zeta. unfold invoke, emit. simpl.
    apply Inv_idle; simpl; try reflexivity.
    intros id x Hx.
    destruct (decide (id = hb)) as [->|Hn2].
    { erewrite lookup_insert_same in Hx
        by (apply lookup_insert_other; eauto).
      simplify_eq. reflexivity. }
    rewrite list_lookup_insert_ne in Hx by congruence.
    destruct (decide (id = t)) as [->|Hn1].
    { erewrite lookup_insert_same in Hx by eauto. simplify_eq. reflexivity. }
    rewrite list_lookup_insert_ne in Hx by congruence. eauto.
Qed.

(** An armed timer is one of the two the session holds, it is the one its
    field says, and no close was requested. *)
Lemma Inv_armed (w : World) (id : TimerId) (x : Watchdog) (fn : TimerFn) :
  Inv w ->
  timers w !! id = Some x -> ontimeout x = Some fn ->
  closing (rpc w) = false /\
  exists h cb t hb wt whb,
    rpcStream (this w) = Some h /\ bound (rpc w) = Some (h, cb) /\
    timeout (this w) = Some t /\ heartbeat (this w) = Some hb /\ t <> hb /\
    timers w !! t = Some wt /\ timers w !! hb = Some whb /\
    ms wt = timeoutMs (this w) /\ ms whb = floor_half (timeoutMs (this w)) /\
    ontimeout wt = Some OnTimeout /\ called wt = false /\
    ontimeout whb = Some OnHeartbeat /\ called whb = false /\
    (forall id' x', timers w !! id' = Some x' -> id' <> t -> id' <> hb ->
                    ontimeout x' = None) /\
    ((id = t /\ fn = OnTimeout) \/ (id = hb /\ fn = OnHeartbeat)).
Proof.
  intros HI Hx Hfn.
  destruct HI as [H1 H2 H3 H4 H5 H6 | h cb' t hb wt whb H1 H2 H3 H4 H5 H6 H7 H8 H9 H10 H11].
  - apply H6 in Hx. congruence.
  - assert (id = t \/ id = hb) as Hid.
    { destruct (decide (id = t)); [auto|].
      destruct (decide (id = hb)); [auto|].
      specialize (H11 id x Hx n n0). congruence. }
    destruct (closing (rpc w)) eqn:Hc.
    { destruct H10 as [Ha Hb]. destruct Hid; simplify_eq; congruence. }
    split; [reflexivity|].
    destruct H10 as (Ha & Hb & Hc' & Hd).
    exists h, cb', t, hb, wt, whb.
    repeat (split; [assumption|]).
    destruct Hid; simplify_eq; [left|right]; split; congruence.
Qed.

Lemma fire_Inv (w : World) (id : TimerId) (x : Watchdog) (fn : TimerFn) :
  Inv w ->
  timers w !! id = Some x -> ontimeout x = Some fn -> called x = false ->
  Inv (world_of ((on_timer wd_call id ;; dispatch fn) w)).
Proof.
  intros HI Hx Hfn Hcalled.
  destruct (Inv_armed w id x fn HI Hx Hfn)
    as (Hc & h & cb & t & hb & wt & whb & H1 & H4 & H2 & H3 & H5 & H6 & H7 &
        H8 & H9 & Ha & Hb & Hc' & Hd & H11 & Hid).
  unfold mbind, M_bind, bind. rewrite (on_timer_some w wd_call id x Hx).
  destruct Hid as [[-> ->] | [-> ->]]; simpl.
  - (* the timeout watchdog *)
    unfold onTimeout.
    erewrite (close_bound _ t hb (wd_call x) whb)
      by (simpl; eauto using lookup_insert_same, lookup_insert_other).
    simpl. simplify_eq.
    apply (Inv_bound _ h cb t hb (wd_destroy (wd_call x)) (wd_destroy whb)); simpl;
      try assumption.
    + apply lookup_insert_other; [congruence|].
      eapply lookup_insert_same. eapply lookup_insert_same; eauto.
    + eapply lookup_insert_same. apply lookup_insert_other; [congruence|].
      apply lookup_insert_other; eauto.
    + rewrite H4. simpl. auto.
    + intros id' x' Hx' Hn1 Hn2.
      rewrite !list_lookup_insert_ne in Hx' by congruence. eauto.
  - (* the heartbeat watchdog *)
    erewrite (onHeartbeat_bound _ hb (wd_call x))
      by (simpl; eauto using lookup_insert_same).
    cbv zeta. simpl. simplify_eq. rewrite !length_insert.
    assert (t < length (timers w))%nat as Hlt by (eapply lookup_lt_Some; eauto).
    assert (hb < length (timers w))%nat as Hlt' by (eapply lookup_lt_Some; eauto).
    apply (Inv_bound _ h cb t (length (timers w)) wt
             (mkWatchdog (floor_half (timeoutMs (this w))) (Some OnHeartbeat) false 0));
      simpl; try assumption; try reflexivity.
    + lia.
    + rewrite lookup_app_l by (rewrite !length_insert; exact Hlt).
      rewrite !list_lookup_insert_ne by congruence. assumption.
    + rewrite lookup_app_r by (rewrite !length_insert; lia).
      rewrite !length_insert, Nat.sub_diag. reflexivity.
    + rewrite Hc. auto.
    + intros id' x' Hx' Hn1 Hn2.
      assert (id' < length (timers w))%nat as Hlt''.
      { apply lookup_lt_Some in Hx'. rewrite length_app, !length_insert in Hx'.
        simpl in Hx'. lia. }
      rewrite lookup_app_l in Hx' by (rewrite !length_insert; exact Hlt'').
      destruct (decide (id' = hb)) as [->|Hn3].
      { erewrite lookup_insert_same in Hx' by (eapply lookup_insert_same; eauto).
        simplify_eq. reflexivity. }
      rewrite !list_lookup_insert_ne in Hx' by congruence. eauto.
Qed.

Lemma Inv_step (e : Event) (w : World) (o : Outcome unit) :
  Inv w -> step e w = Some o -> Inv (world_of o).
Proof.
  intros HI Hstep. destruct e; simpl in Hstep.
  - simplify_eq. unfold mbind, M_bind, bind.
    pose proof (createStream_Inv w cb HI) as H.
    destruct (createStream cb w); exact H.
  - simplify_eq. apply close_Inv, HI.
  - simplify_eq. apply rpcHeartbeat_Inv, HI.
  - destruct (timers w !! id) as [x|] eqn:Hx; [|discriminate].
    destruct (ontimeout x) as [fn|] eqn:Hfn; [|discriminate].
    destruct (called x) eqn:Hc; [discriminate|].
    simplify_eq. eapply fire_Inv; eauto.
  - destruct (inflight (rpc w)) as [|n] eqn:Hn; [discriminate|].
    destruct (reply_possible err (rpc w)); [|discriminate].
    simplify_eq. unfold mbind, M_bind, bind, set_rpc.
    apply heartbeatReply_Inv. eapply Inv_frame; eauto.
  - destruct (bound (rpc w)); [|discriminate].
    simplify_eq. apply report_end_Inv, HI.
  - destruct (closeReqs (rpc w)) as [|[reason k] rest]; [discriminate|].
    simplify_eq. unfold mbind, M_bind, bind, set_rpc.
    match goal with
    | |- context [report_end reason ?w1] =>
        pose proof (report_end_Inv w1 reason) as H;
        destruct (report_end reason w1) as [[] w2|e w2]
    end.
    + unfold invoke, emit. simpl in *.
      eapply Inv_frame; [apply H; eapply Inv_frame; eauto|..]; reflexivity.
    + simpl in *. apply H. eapply Inv_frame; eauto.
  - destruct (ticks w) as [|cb rest]; [discriminate|].
    simplify_eq. mred0. eapply Inv_frame; eauto.
Qed.

Lemma reachable_Inv (w : World) : reachable w -> Inv w.
Proof.
  induction 1 as [c opts s Hnew | e w o Hw IH Hstep].
  - eapply Inv_new; eauto.
  - eapply Inv_step; eauto.
Qed.

(** ** Runs *)

Lemma reachable_run (es : list Event) (w w' : World) :
  reachable w -> run es w = Some w' -> reachable w'.
Proof.
  revert w. induction es as [|e es IH]; intros w Hw Hrun; simpl in Hrun.
  - simplify_eq. exact Hw.
  - destruct (step e w) as [o|] eqn:Hstep; [|discriminate].
    eapply IH; [|exact Hrun]. eapply reachable_step; eauto.
Defined.

Lemma reachable_fresh : reachable fresh.
Proof. apply (reachable_new UpgradeProtocol None). reflexivity. Defined.

Lemma reachable_streaming : reachable streaming.
Proof.
  apply (reachable_run [EvCreateStream (Some (Fn 0))] fresh).
  - exact reachable_fresh.
  - reflexivity.
Defined.

(** ** The watchdogs exist exactly in the Active state *)

Lemma bool_same_iff (a b : bool) (P : Prop) :
  (a = true <-> P) -> (b = true <-> P) -> a = b.
Proof.
  intros [Ha1 Ha2] [Hb1 Hb2]. destruct a, b; try reflexivity.
  - symmetry. apply Hb2, Ha1. reflexivity.
  - apply Ha2, Hb1. reflexivity.
Qed.

Lemma Inv_exists_iff_active (w : World) :
  Inv w ->
  (exists_wd (timeout (this w)) w = true <-> phase w = Active) /\
  (exists_wd (heartbeat (this w)) w = true <-> phase w = Active).
Proof.
  intros [H1 H2 H3 H4 H5 H6 | h cb t hb wt whb H1 H2 H3 H4 H5 H6 H7 H8 H9 H10 H11];
    unfold phase, exists_wd; rewrite H1, H2, H3.
  - destruct (streams (rpc w)); split; split; intros; discriminate.
  - rewrite H6, H7. unfold wd_destroyed.
    destruct (closing (rpc w)).
    + destruct H10 as [-> ->]. split; split; intros; discriminate.
    + destruct H10 as (-> & _ & -> & _). split; split; reflexivity.
Qed.

Lemma Inv_no_leak (w : World) (id : TimerId) (x : Watchdog) :
  Inv w ->
  timers w !! id = Some x -> wd_destroyed x = false ->
  timeout (this w) = Some id \/ heartbeat (this w) = Some id.
Proof.
  intros HI Hx Hd. unfold wd_destroyed in Hd.
  destruct (ontimeout x) as [fn|] eqn:Hfn; [|discriminate].
  destruct (Inv_armed w id x fn HI Hx Hfn)
    as (_ & h & cb & t & hb & wt & whb & _ & _ & H2 & H3 & _ & _ & _ & _ & _ &
        _ & _ & _ & _ & _ & [[-> _] | [-> _]]); auto.
Qed.

(** C1: in every world a session of either class can reach, the timeout
    watchdog exists if and only if the session is Active, and so does the
    heartbeat watchdog; hence the two exist together or not at all.  No
    other timer of the store is left undestroyed.  [createStream] on a
    session without a stream makes both exist, and both are gone after an
    explicit [close] and after the transport reported the end of the
    stream. *)
Theorem C1_watchdogs_iff_active (w : World) :
  reachable w ->
  (exists_wd (timeout (this w)) w = true <-> phase w = Active) /\
  (exists_wd (heartbeat (this w)) w = true <-> phase w = Active) /\
  exists_wd (timeout (this w)) w = exists_wd (heartbeat (this w)) w /\
  (forall id x, timers w !! id = Some x -> wd_destroyed x = false ->
                timeout (this w) = Some id \/ heartbeat (this w) = Some id) /\
  (forall cb w1,
      rpcStream (this w) = None -> w1 = world_of (createStream cb w) ->
      exists_wd (timeout (this w1)) w1 = true /\
      exists_wd (heartbeat (this w1)) w1 = true) /\
  (forall err cb w1,
      w1 = world_of (close err cb w) ->
      exists_wd (timeout (this w1)) w1 = false /\
      exists_wd (heartbeat (this w1)) w1 = false) /\
  (forall err o w1,
      step (EvTransportEnd err) w = Some o -> w1 = world_of o ->
      exists_wd (timeout (this w1)) w1 = false /\
      exists_wd (heartbeat (this w1)) w1 = false).
Proof.
  intros Hw. pose proof (reachable_Inv w Hw) as HI.
  destruct (Inv_exists_iff_active w HI) as [Ht Hh].
  split; [exact Ht|]. split; [exact Hh|].
  split; [exact (bool_same_iff _ _ _ Ht Hh)|].
  split; [intros id x; apply Inv_no_leak, HI|].
  split; [|split].
  - intros cb w1 Hs ->.
    pose proof (createStream_Inv w cb HI) as HI1.
    destruct (Inv_exists_iff_active _ HI1) as [[_ Ht1] [_ Hh1]].
    assert (phase (world_of (createStream cb w)) = Active) as Hp.
    { rewrite (createStream_idle w cb Hs). reflexivity. }
    auto.
  - intros err cb w1 ->.
    pose proof (close_Inv w err cb HI) as HI1.
    destruct (Inv_exists_iff_active _ HI1) as [Ht1 Hh1].
    assert (phase (world_of (close err cb w)) <> Active) as Hp.
    { destruct HI as [H1 H2 H3 H4 H5 H6 | h cb' t hb wt whb H1 H2 H3 H4 H5 H6 H7 H8 H9 H10 H11].
      - rewrite (close_idle w err cb H1). unfold phase. simpl. rewrite H1.
        destruct (streams (rpc w)); discriminate.
      - rewrite (close_bound w t hb wt whb H2 H3 H5 H6 H7 err cb h H1).
        unfold phase. simpl. rewrite H1, H4. simpl. discriminate. }
    split; apply not_true_is_false; intros E; apply Hp;
      [apply Ht1 | apply Hh1]; exact E.
  - intros err o w1 Hstep ->.
    pose proof (Inv_step _ _ _ HI Hstep) as HI1.
    destruct (Inv_exists_iff_active _ HI1) as [Ht1 Hh1].
    assert (rpcStream (this (world_of o)) = None) as Hs.
    { simpl in Hstep. destruct (bound (rpc w)) as [[h cb]|] eqn:Hb; [|discriminate].
      simplify_eq. unfold report_end. rewrite Hb.
      destruct HI as [H1 H2 H3 H4 H5 H6 | h' cb' t hb wt whb H1 H2 H3 H4 H5 H6 H7 H8 H9 H10 H11];
        [congruence|].
      unfold unbind, streamClosed. unfold mbind, M_bind, bind, set_rpc.
      erewrite (onRpcClose_bound _ t hb wt whb) by (simpl; eauto).
      reflexivity. }
    assert (phase (world_of o) <> Active) as Hp.
    { unfold phase. rewrite Hs. destruct (streams _); discriminate. }
    split; apply not_true_is_false; intros E; apply Hp;
      [apply Ht1 | apply Hh1]; exact E.
Qed.

Lemma C1_witness :
  (exists_wd (timeout (this streaming)) streaming = true <-> phase streaming = Active) /\
  (exists_wd (heartbeat (this streaming)) streaming = true <-> phase streaming = Active) /\
  exists_wd (timeout (this streaming)) streaming =
    exists_wd (heartbeat (this streaming)) streaming.
Proof.
  pose proof (C1_watchdogs_iff_active streaming reachable_streaming)
    as (H1 & H2 & H3 & _).
  exact (conj H1 (conj H2 H3)).
Defined.

(** ** A second [createStream] *)

Lemma step_keeps_stream (w : World) (e : Event) (o : Outcome unit) (h : StreamHandle) :
  Inv w -> ends_stream e = false -> step e w = Some o ->
  rpcStream (this w) = Some h -> rpcStream (this (world_of o)) = Some h.
Proof.
  intros HI He Hstep Hs.
  destruct HI as [H1 H2 H3 H4 H5 H6 | h' cb' t hb wt whb H1 H2 H3 H4 H5 H6 H7 H8 H9 H10 H11];
    [congruence|].
  destruct e; simpl in Hstep; try discriminate.
  - simplify_eq. unfold mbind, M_bind, bind.
    rewrite (createStream_bound w cb h' H1). simpl. congruence.
  - simplify_eq.
    rewrite (close_bound w t hb wt whb H2 H3 H5 H6 H7 err cb h' H1). simpl. congruence.
  - simplify_eq.
    rewrite (rpcHeartbeat_bound w t hb wt whb H2 H3 H5 H6 H7 cb). simpl. congruence.
  - destruct (timers w !! id) as [x|] eqn:Hx; [|discriminate].
    destruct (ontimeout x) as [fn|] eqn:Hfn; [|discriminate].
    destruct (called x) eqn:Hc; [discriminate|]. simplify_eq.
    unfold mbind, M_bind, bind. rewrite (on_timer_some w wd_call id x Hx).
    destruct fn; simpl.
    + unfold onTimeout.
      destruct (decide (id = t)) as [->|Hn].
      * erewrite (close_bound _ t hb (wd_call x) whb)
          by (simpl; eauto using lookup_insert_same, lookup_insert_other).
        simpl. congruence.
      * assert (id = hb) as ->.
        { destruct (decide (id = hb)); [assumption|].
          specialize (H11 id x Hx Hn n). congruence. }
        erewrite (close_bound _ t hb wt (wd_call x))
          by (simpl; eauto using lookup_insert_same, lookup_insert_other).
        simpl. congruence.
    + destruct (decide (id = hb)) as [->|Hn].
      * erewrite (onHeartbeat_bound _ hb (wd_call x))
          by (simpl; eauto using lookup_insert_same).
        simpl. congruence.
      * erewrite (onHeartbeat_bound _ hb whb)
          by (simpl; eauto using lookup_insert_other).
        simpl. congruence.
  - destruct (inflight (rpc w)) as [|n] eqn:Hn; [discriminate|].
    destruct (reply_possible err (rpc w)); [|discriminate]. simplify_eq.
    unfold mbind, M_bind, bind, set_rpc. destruct err as [e|].
    + simpl. congruence.
    + erewrite (heartbeatReply_bound _ t hb wt whb) by (simpl; eauto).
      simpl. congruence.
  - destruct (ticks w) as [|cb rest]; [discriminate|]. simplify_eq.
    mred0. fields. congruence.
Qed.

Lemma run_keeps_stream (es : list Event) (w w' : World) (h : StreamHandle) :
  Inv w -> forallb (fun e => negb (ends_stream e)) es = true ->
  run es w = Some w' ->
  rpcStream (this w) = Some h -> rpcStream (this w') = Some h.
Proof.
  revert w. induction es as [|e es IH]; intros w HI Hes Hrun Hs; simpl in *.
  - simplify_eq. exact Hs.
  - apply andb_true_iff in Hes as [He Hes]. apply negb_true_iff in He.
    destruct (step e w) as [o|] eqn:Hstep; [|discriminate].
    apply (IH (world_of o)); eauto using Inv_step, step_keeps_stream.
Qed.

(** C2: when [createStream] has returned a stream handle and the transport
    has not reported the end of that stream since, whatever else happened,
    a second [createStream] returns [false] without throwing and changes
    nothing: the session still holds the handle of the first call. *)
Theorem C2_second_createStream_fails
  (w w1 w2 : World) (cb1 cb2 : option Callback) (h : StreamHandle) (es : list Event) :
  reachable w ->
  createStream cb1 w = Returned (RetStream (Some h)) w1 ->
  forallb (fun e => negb (ends_stream e)) es = true ->
  run es w1 = Some w2 ->
  createStream cb2 w2 = Returned RetFalse w2 /\
  rpcStream (this w2) = Some h.
Proof.
  intros Hw Hfirst Hes Hrun.
  pose proof (reachable_Inv w Hw) as HI.
  pose proof (createStream_Inv w cb1 HI) as HI1.
  rewrite Hfirst in HI1. simpl in HI1.
  assert (rpcStream (this w1) = Some h) as Hs1.
  { destruct (rpcStream (this w)) as [h0|] eqn:Hs.
    - rewrite (createStream_bound w cb1 h0 Hs) in Hfirst. discriminate.
    - rewrite (createStream_idle w cb1 Hs) in Hfirst. cbv zeta in Hfirst.
      simplify_eq. reflexivity. }
  pose proof (run_keeps_stream es w1 w2 h HI1 Hes Hrun Hs1) as Hs2.
  split; [|exact Hs2].
  apply (createStream_bound w2 cb2 h Hs2).
Qed.

Lemma C2_witness :
  createStream (Some (Fn 1)) closing_inflight = Returned RetFalse closing_inflight /\
  rpcStream (this closing_inflight) = Some 0%nat.
Proof.
  apply (C2_second_createStream_fails fresh streaming closing_inflight
           (Some (Fn 0)) (Some (Fn 1)) 0%nat [EvTimer 1; EvClose None None]).
  - exact reachable_fresh.
  - reflexivity.
  - reflexivity.
  - reflexivity.
Defined.

Lemma Inv_active (w : World) :
  Inv w -> phase w = Active ->
  exists h cb t hb wt whb, ActiveView w h cb t hb wt whb.
Proof.
  intros HI Hp. unfold phase in Hp.
  destruct HI as [H1 H2 H3 H4 H5 H6 | h cb t hb wt whb H1 H2 H3 H4 H5 H6 H7 H8 H9 H10 H11].
  - rewrite H1 in Hp. destruct (streams (rpc w)); discriminate.
  - rewrite H1 in Hp. destruct (closing (rpc w)) eqn:Hc; [discriminate|].
    destruct H10 as (Ha & Hb & Hc' & Hd).
    exists h, cb, t, hb, wt, whb. constructor; assumption.
Qed.

(** ** The timeout watchdog fires *)

(** C3: in an Active session the timeout watchdog can fire; its function
    is [close] called with [new Error('remote timeout')] and nothing else.
    The firing destroys both watchdogs and asks the transport to close with
    that error as the reason, and leaves the session object as it was.  When
    the transport then reports the end of the stream with that reason, the
    callback given to [createStream] is called with that very error. *)
Theorem C3_timeout_closes_with_remote_timeout (w : World) :
  reachable w -> phase w = Active ->
  exists h cb t hb w1 w2,
    bound (rpc w) = Some (h, cb) /\
    timeout (this w) = Some t /\ heartbeat (this w) = Some hb /\
    dispatch OnTimeout = close (Some (Error "remote timeout")) None /\
    step (EvTimer t) w = Some (Returned tt w1) /\
    this w1 = this w /\ ticks w1 = ticks w /\
    trace w1 = trace w ++
      [TimerDestroy t; TimerDestroy hb;
       RpcClose (Some (Error "remote timeout"))
         (Bind Noop (Some (Error "remote timeout")))] /\
    closeReqs (rpc w1) = closeReqs (rpc w) ++
      [(Some (Error "remote timeout"), Bind Noop (Some (Error "remote timeout")))] /\
    phase w1 = Closing /\
    report_end (Some (Error "remote timeout")) w1 = Returned tt w2 /\
    trace w2 = trace w1 ++
      [TimerDestroy t; TimerDestroy hb] ++ calls cb [Some (Error "remote timeout")] /\
    rpcStream (this w2) = None /\
    (closeReqs (rpc w) = [] ->
     exists w3, step EvCloseDone w1 = Some (Returned tt w3) /\
                trace w3 = trace w2 /\ this w3 = this w2 /\
                closeReqs (rpc w3) = []).
Proof.
  intros Hw Hp. pose proof (reachable_Inv w Hw) as HI.
  destruct (Inv_active w HI Hp) as (h & cb & t & hb & wt & whb & Hav).
  destruct Hav as [Hs Hb Hc Ht Hh Hne Hwt Hwhb Hwtms Hwhbms Hwtfn Hwtc Hwhbfn Hwhbc].
  pose proof (step_timer w t wt OnTimeout Hwt Hwtfn Hwtc) as Hstep.
  cbn [dispatch] in Hstep. unfold onTimeout in Hstep.
  erewrite (close_bound _ t hb (wd_call wt) whb) in Hstep by store.
  fields. rewrite Hb in Hstep.
  match type of Hstep with _ = Some (Returned tt ?x) => set (w1 := x) in * end.
  assert (timers w1 !! t = Some (wd_destroy (wd_call wt))) as Hwt1.
  { apply lookup_insert_other; [congruence|].
    eapply lookup_insert_same. eapply lookup_insert_same; eauto. }
  assert (timers w1 !! hb = Some (wd_destroy whb)) as Hwhb1.
  { eapply lookup_insert_same. apply lookup_insert_other; [congruence|].
    apply lookup_insert_other; eauto. }
  pose proof (report_end_bound w1 t hb _ _ Ht Hh Hne Hwt1 Hwhb1
                (Some remote_timeout) h cb eq_refl) as Hend.
  match type of Hend with _ = Returned tt ?x => set (w2 := x) in * end.
  exists h, cb, t, hb, w1, w2.
  split; [assumption|]. split; [assumption|]. split; [assumption|].
  split; [reflexivity|]. split; [exact Hstep|].
  split; [reflexivity|]. split; [reflexivity|]. split; [reflexivity|].
  split; [reflexivity|].
  split.
  { unfold phase. change (rpcStream (this w1)) with (rpcStream (this w)).
    rewrite Hs. reflexivity. }
  split; [exact Hend|]. split; [reflexivity|]. split; [reflexivity|].
  intros Hnil.
  pose proof (step_closeDone w1 (Some remote_timeout)
                (Bind Noop (Some remote_timeout)) []) as Hdone.
  eexists. split.
  { rewrite Hdone by (change (closeReqs (rpc w1)) with
                        (closeReqs (rpc w) ++
                           [(Some remote_timeout, Bind Noop (Some remote_timeout))]);
                      rewrite Hnil; reflexivity).
    unfold mbind, M_bind, bind.
    erewrite (report_end_bound _ t hb (wd_destroy (wd_call wt)) (wd_destroy whb))
      by first [exact Ht | exact Hh | exact Hne | exact Hwt1 | exact Hwhb1
               | reflexivity].
    reflexivity. }
  cbn [world_of this timers rpc ticks trace closeReqs calls].
  rewrite app_nil_r. auto.
Qed.

Lemma C3_witness :
  exists w1 w2,
    step (EvTimer 0%nat) streaming = Some (Returned tt w1) /\
    report_end (Some (Error "remote timeout")) w1 = Returned tt w2 /\
    trace w2 = trace w1 ++
      [TimerDestroy 0%nat; TimerDestroy 1%nat; Call 0 [Some (Error "remote timeout")]].
Proof.
  destruct (C3_timeout_closes_with_remote_timeout streaming reachable_streaming eq_refl)
    as (h & cb & t & hb & w1 & w2 & Hb & Ht & Hh & _ & Hstep & _ & _ & _ & _ & _ &
        Hend & Htr & _).
  cbn in Hb, Ht, Hh. simplify_eq.
  exists w1, w2. auto.
Defined.

(** ** The local [Heartbeat] handler *)

(** On a freshly constructed session, which is Unconnected, the handler
    throws at [this.timeout.refresh()] and does not call back. *)
Lemma C4_counterexample :
  reachable fresh /\ phase fresh = Unconnected /\
  rpcHeartbeat (Fn 0) fresh =
    Thrown (TypeError "Cannot read property 'refresh' of null") fresh /\
  ~ (exists w', rpcHeartbeat (Fn 0) fresh = Returned tt w').
Proof.
  split; [exact reachable_fresh|]. split; [reflexivity|].
  split; [reflexivity|].
  intros [w' H]. discriminate H.
Qed.

(** C4, amended: while the session has a stream (Active or Closing), the
    handler calls [refresh()] on the timeout watchdog, then on the heartbeat
    watchdog, then calls back with no argument, and does not throw.  In the
    Active state both watchdogs are re-armed; in the Closing state they are
    destroyed and stay as they are. *)
Theorem C4_heartbeat_handler (w : World) (cb : Callback) :
  reachable w ->
  is_Some (rpcStream (this w)) ->
  exists t hb wt whb,
    timeout (this w) = Some t /\ heartbeat (this w) = Some hb /\
    timers w !! t = Some wt /\ timers w !! hb = Some whb /\
    rpcHeartbeat cb w =
      Returned tt
        (mkWorld (this w)
           (<[hb := wd_refresh whb]> (<[t := wd_refresh wt]> (timers w)))
           (rpc w) (ticks w)
           (trace w ++ [TimerRefresh t; TimerRefresh hb] ++ calls cb [])) /\
    (phase w = Active ->
     refreshed (wd_refresh wt) = S (refreshed wt) /\
     refreshed (wd_refresh whb) = S (refreshed whb) /\
     wd_armed (wd_refresh wt) = true /\ wd_armed (wd_refresh whb) = true) /\
    (phase w = Closing -> wd_refresh wt = wt /\ wd_refresh whb = whb).
Proof.
  intros Hw Hsome. pose proof (reachable_Inv w Hw) as HI.
  destruct HI as [H1 H2 H3 H4 H5 H6 | h cb' t hb wt whb H1 H2 H3 H4 H5 H6 H7 H8 H9 H10 H11].
  - rewrite H1 in Hsome. destruct Hsome as [x Hx]. discriminate.
  - exists t, hb, wt, whb.
    repeat (split; [assumption|]).
    split; [apply (rpcHeartbeat_bound w t hb wt whb); assumption|].
    unfold phase. rewrite H1.
    destruct (closing (rpc w)).
    + destruct H10 as [Ha Hb].
      split; [intros ?; discriminate|]. intros _.
      split; apply wd_refresh_destroyed; assumption.
    + destruct H10 as (Ha & Hb & Hc & Hd).
      split; [|intros ?; discriminate]. intros _.
      assert (wd_armed wt = true) as A1
        by (unfold wd_armed, wd_destroyed; rewrite Ha, Hb; reflexivity).
      assert (wd_armed whb = true) as A2
        by (unfold wd_armed, wd_destroyed; rewrite Hc, Hd; reflexivity).
      rewrite (wd_refresh_armed wt A1), (wd_refresh_armed whb A2).
      unfold wd_armed, wd_destroyed. cbn [refreshed ontimeout called].
      rewrite Ha, Hb, Hc, Hd. auto.
Qed.

Lemma C4_witness :
  rpcHeartbeat (Fn 7) streaming =
    Returned tt
      (mkWorld (this streaming)
         [mkWatchdog (JsNum (Int 20000)) (Some OnTimeout) false 1;
          mkWatchdog (JsNum (Int 10000)) (Some OnHeartbeat) false 1]
         (rpc streaming) (ticks streaming)
         (trace streaming ++ [TimerRefresh 0%nat; TimerRefresh 1%nat; Call 7 []])).
Proof.
  destruct (C4_heartbeat_handler streaming (Fn 7) reachable_streaming
              (ex_intro _ 0%nat eq_refl))
    as (t & hb & wt & whb & Ht & Hh & Hwt & Hwhb & Heq & _).
  cbn in Ht, Hh. simplify_eq. cbn in Hwt, Hwhb. simplify_eq.
  exact Heq.
Defined.

(** ** The heartbeat watchdog fires *)



(** ** [close] without a stream *)

Lemma close_returns (w : World) (err : Err) (cb : option Callback) :
  Inv w -> exists w', close err cb w = Returned tt w'.
Proof.
  intros [H1 H2 H3 H4 H5 H6 | h cb' t hb wt whb H1 H2 H3 H4 H5 H6 H7 H8 H9 H10 H11].
  - rewrite (close_idle w err cb H1). eauto.
  - rewrite (close_bound w t hb wt whb H2 H3 H5 H6 H7 err cb h H1). eauto.
Qed.

(** Running the whole [nextTick] queue calls each callback in it once, in
    order, with no argument, and touches nothing else. *)
Lemma run_ticks (q : list Callback) (s : Session) (ts : list Watchdog)
    (r : Transport) (tr : list Action) :
  run (replicate (length q) EvTick) (mkWorld s ts r q tr) =
    Some (mkWorld s ts r [] (tr ++ flat_map (fun c => calls c []) q)).
Proof.
  revert tr. induction q as [|c q IH]; intros tr.
  - cbn [length replicate run flat_map]. rewrite app_nil_r. reflexivity.
  - cbn [length replicate run flat_map].
    rewrite (step_tick (mkWorld s ts r (c :: q) tr) c q eq_refl).
    cbn [world_of this timers rpc ticks trace]. rewrite IH.
    rewrite <- app_assoc. reflexivity.
Qed.

(** C6: on a session without a stream, [close(err, cb)] does not call [cb]:
    it only queues it with [nextTick], whatever [err] is.  When the queue is
    run, [cb] is called once, after the callbacks queued before it, with no
    argument, and the queue is empty afterwards.  In no world the session
    can reach does [close] throw. *)
Theorem C6_close_without_stream (w : World) (err : Err) (cb : option Callback) :
  reachable w ->
  (exists w', close err cb w = Returned tt w') /\
  (rpcStream (this w) = None ->
   exists w1,
     close err cb w = Returned tt w1 /\
     this w1 = this w /\ timers w1 = timers w /\ rpc w1 = rpc w /\
     ticks w1 = ticks w ++ [or_noop cb] /\
     trace w1 = trace w ++ [NextTick (or_noop cb)] /\
     run (replicate (S (length (ticks w))) EvTick) w1 =
       Some (mkWorld (this w) (timers w) (rpc w) []
               (trace w1 ++ flat_map (fun c => calls c []) (ticks w) ++
                  calls (or_noop cb) []))).
Proof.
  intros Hw. split; [apply close_returns, reachable_Inv, Hw|].
  intros Hs. eexists. split; [apply (close_idle w err cb Hs)|].
  gfields. repeat (split; [reflexivity|]).
  pose proof (run_ticks (ticks w ++ [or_noop cb]) (this w) (timers w) (rpc w)
                (trace w ++ [NextTick (or_noop cb)])) as Hrun.
  rewrite length_app in Hrun. cbn [length] in Hrun. rewrite Nat.add_1_r in Hrun.
  rewrite Hrun. rewrite flat_map_app. cbn [flat_map]. rewrite app_nil_r.
  reflexivity.
Qed.

Lemma C6_witness :
  exists w1,
    close (Some (Error "boom")) (Some (Fn 3)) fresh = Returned tt w1 /\
    trace w1 = [NextTick (Fn 3)] /\
    run [EvTick] w1 =
      Some (mkWorld (this fresh) [] (rpc fresh) [] [NextTick (Fn 3); Call 3 []]).
Proof.
  destruct (C6_close_without_stream fresh (Some (Error "boom")) (Some (Fn 3))
              reachable_fresh) as [_ H].
  destruct (H eq_refl) as (w1 & Hc & _ & _ & _ & _ & Htr & Hrun).
  exists w1. split; [exact Hc|]. split; [exact Htr|].
  rewrite Htr in Hrun. exact Hrun.
Defined.

(** ** [close] on an Active session *)

(** C7: on an Active session, [close(err, cb)] destroys the timeout
    watchdog and the heartbeat watchdog and then asks the transport to
    close, with [err] as the reason and [cb.bind(null, err)] as the
    continuation; it calls nothing itself.  Both watchdogs are gone when it
    returns.  The continuation, whatever arguments it is called with, calls
    [cb] with [err] first.  When no earlier close is pending, the completion
    of this one reports the end of the stream with reason [err] to the
    callback of [createStream], calls [cb] with [err] once, and leaves no
    close pending. *)
Theorem C7_close_active (w : World) (err : Err) (cb : option Callback) :
  reachable w -> phase w = Active ->
  exists h scb t hb w1,
    bound (rpc w) = Some (h, scb) /\
    timeout (this w) = Some t /\ heartbeat (this w) = Some hb /\
    close err cb w = Returned tt w1 /\
    trace w1 = trace w ++
      [TimerDestroy t; TimerDestroy hb; RpcClose err (Bind (or_noop cb) err)] /\
    exists_wd (timeout (this w1)) w1 = false /\
    exists_wd (heartbeat (this w1)) w1 = false /\
    this w1 = this w /\ ticks w1 = ticks w /\
    closeReqs (rpc w1) = closeReqs (rpc w) ++ [(err, Bind (or_noop cb) err)] /\
    phase w1 = Closing /\
    (forall args, calls (Bind (or_noop cb) err) args = calls (or_noop cb) (err :: args)) /\
    (closeReqs (rpc w) = [] ->
     exists w2,
       step EvCloseDone w1 = Some (Returned tt w2) /\
       trace w2 = trace w1 ++
         [TimerDestroy t; TimerDestroy hb] ++ calls scb [err] ++
         calls (or_noop cb) [err] /\
       closeReqs (rpc w2) = [] /\ rpcStream (this w2) = None).
Proof.
  intros Hw Hp. pose proof (reachable_Inv w Hw) as HI.
  destruct (Inv_active w HI Hp) as (h & scb & t & hb & wt & whb & Hav).
  destruct Hav as [Hs Hb Hc Ht Hh Hne Hwt Hwhb Hwtms Hwhbms Hwtfn Hwtc Hwhbfn Hwhbc].
  pose proof (close_bound w t hb wt whb Ht Hh Hne Hwt Hwhb err cb h Hs) as Hclose.
  rewrite Hb in Hclose.
  match type of Hclose with _ = Returned tt ?x => set (w1 := x) in * end.
  assert (timers w1 !! t = Some (wd_destroy wt)) as Hwt1.
  { apply lookup_insert_other; [congruence|]. eapply lookup_insert_same; eauto. }
  assert (timers w1 !! hb = Some (wd_destroy whb)) as Hwhb1.
  { eapply lookup_insert_same. apply lookup_insert_other; eauto. }
  exists h, scb, t, hb, w1.
  repeat (split; [assumption|]).
  split; [reflexivity|].
  split.
  { unfold exists_wd. change (timeout (this w1)) with (timeout (this w)).
    rewrite Ht, Hwt1. reflexivity. }
  split.
  { unfold exists_wd. change (heartbeat (this w1)) with (heartbeat (this w)).
    rewrite Hh, Hwhb1. reflexivity. }
  split; [reflexivity|]. split; [reflexivity|]. split; [reflexivity|].
  split.
  { unfold phase. change (rpcStream (this w1)) with (rpcStream (this w)).
    rewrite Hs. reflexivity. }
  split; [reflexivity|].
  intros Hnil. eexists. split.
  { rewrite (step_closeDone w1 err (Bind (or_noop cb) err) [])
      by (change (closeReqs (rpc w1)) with
            (closeReqs (rpc w) ++ [(err, Bind (or_noop cb) err)]);
          rewrite Hnil; reflexivity).
    unfold mbind, M_bind, bind.
    erewrite (report_end_bound _ t hb (wd_destroy wt) (wd_destroy whb))
      by first [exact Ht | exact Hh | exact Hne | exact Hwt1 | exact Hwhb1
               | reflexivity].
    reflexivity. }
  cbn [world_of this timers rpc ticks trace closeReqs rpcStream calls].
  rewrite <- !app_assoc. auto.
Qed.

Lemma C7_witness :
  exists w1 w2,
    close (Some (Error "bye")) (Some (Fn 5)) streaming = Returned tt w1 /\
    trace w1 = trace streaming ++
      [TimerDestroy 0%nat; TimerDestroy 1%nat;
       RpcClose (Some (Error "bye")) (Bind (Fn 5) (Some (Error "bye")))] /\
    step EvCloseDone w1 = Some (Returned tt w2) /\
    trace w2 = trace w1 ++
      [TimerDestroy 0%nat; TimerDestroy 1%nat;
       Call 0 [Some (Error "bye")]; Call 5 [Some (Error "bye")]].
Proof.
  destruct (C7_close_active streaming (Some (Error "bye")) (Some (Fn 5))
              reachable_streaming eq_refl)
    as (h & scb & t & hb & w1 & Hb & Ht & Hh & Hc & Htr & _ & _ & _ & _ & _ & _ &
        _ & Hdone).
  cbn in Hb, Ht, Hh. simplify_eq.
  destruct (Hdone eq_refl) as (w2 & Hstep & Htr2 & _).
  exists w1, w2. auto.
Defined.

(** ** A reply to an outbound [Heartbeat] after [close] *)

Lemma Inv_closing (w : World) :
  Inv w -> phase w = Closing ->
  exists t hb wt whb,
    timeout (this w) = Some t /\ heartbeat (this w) = Some hb /\ t <> hb /\
    timers w !! t = Some wt /\ timers w !! hb = Some whb /\
    ontimeout wt = None /\ ontimeout whb = None.
Proof.
  intros HI Hp. unfold phase in Hp.
  destruct HI as [H1 H2 H3 H4 H5 H6 | h cb t hb wt whb H1 H2 H3 H4 H5 H6 H7 H8 H9 H10 H11].
  - rewrite H1 in Hp. destruct (streams (rpc w)); discriminate.
  - rewrite H1 in Hp. destruct (closing (rpc w)); [|discriminate].
    destruct H10 as [Ha Hb]. exists t, hb, wt, whb. auto 10.
Qed.

Lemma reachable_closing_inflight : reachable closing_inflight.
Proof.
  apply (reachable_run
           [EvCreateStream (Some (Fn 0)); EvTimer 1; EvClose None None] fresh).
  - exact reachable_fresh.
  - reflexivity.
Defined.




(** ** [createStream] on a session without a stream *)

(** C9: on a session without a stream, [createStream(cb)] binds the
    transport to a stream it had not handed out before, with [cb] (or the
    no-op) as the callback of the closure; creates the timeout watchdog with
    delay [timeoutMs] and the heartbeat watchdog with delay
    [floor(timeoutMs/2)], both armed, and stores them in the two timer
    fields; and returns the handle of the stream, which is the one the
    session now holds.  The session is Active afterwards.  For an integer
    [timeoutMs = z] the heartbeat delay is the integer [q] with
    [2q <= z < 2q + 2]. *)
Theorem C9_createStream_arms (w : World) (cb : option Callback) :
  rpcStream (this w) = None ->
  exists h t hb w1,
    createStream cb w = Returned (RetStream (Some h)) w1 /\
    h = streams (rpc w) /\
    rpcStream (this w1) = Some h /\
    bound (rpc w1) = Some (h, or_noop cb) /\
    timeout (this w1) = Some t /\ heartbeat (this w1) = Some hb /\ t <> hb /\
    timers w !! t = None /\ timers w !! hb = None /\
    timers w1 !! t = Some (mkWatchdog (timeoutMs (this w)) (Some OnTimeout) false 0) /\
    timers w1 !! hb =
      Some (mkWatchdog (floor_half (timeoutMs (this w))) (Some OnHeartbeat) false 0) /\
    timeoutMs (this w1) = timeoutMs (this w) /\
    exists_wd (timeout (this w1)) w1 = true /\
    exists_wd (heartbeat (this w1)) w1 = true /\
    phase w1 = Active /\
    trace w1 = trace w ++
      [RpcCreateStream h;
       TimerCreate t (timeoutMs (this w)) OnTimeout;
       TimerCreate hb (floor_half (timeoutMs (this w))) OnHeartbeat] /\
    (forall z, timeoutMs (this w) = JsNum (Int z) ->
               floor_half (timeoutMs (this w)) = JsNum (Int (z / 2)) /\
               (2 * (z / 2) <= z < 2 * (z / 2) + 2)%Z).
Proof.
  intros Hs.
  pose proof (createStream_idle w cb Hs) as Hcs.
  match type of Hcs with _ = Returned _ ?x => set (w1 := x) in * end.
  assert (timers w1 !! length (timers w) =
            Some (mkWatchdog (timeoutMs (this w)) (Some OnTimeout) false 0)) as Ht1.
  { subst w1. gfields. rewrite lookup_app_r by lia.
    rewrite Nat.sub_diag. reflexivity. }
  assert (timers w1 !! S (length (timers w)) =
            Some (mkWatchdog (floor_half (timeoutMs (this w))) (Some OnHeartbeat) false 0))
    as Hhb1.
  { subst w1. gfields. rewrite lookup_app_r by lia.
    replace (S (length (timers w)) - length (timers w))%nat with 1%nat by lia.
    reflexivity. }
  exists (streams (rpc w)), (length (timers w)), (S (length (timers w))), w1.
  split; [exact Hcs|]. split; [reflexivity|]. split; [reflexivity|].
  split; [reflexivity|]. split; [reflexivity|]. split; [reflexivity|].
  split; [lia|].
  split; [apply lookup_ge_None_2; lia|].
  split; [apply lookup_ge_None_2; lia|].
  split; [exact Ht1|]. split; [exact Hhb1|]. split; [reflexivity|].
  split.
  { unfold exists_wd.
    change (timeout (this w1)) with (Some (length (timers w))).
    cbv beta iota. rewrite Ht1. reflexivity. }
  split.
  { unfold exists_wd.
    change (heartbeat (this w1)) with (Some (S (length (timers w)))).
    cbv beta iota. rewrite Hhb1. reflexivity. }
  split; [reflexivity|]. split; [reflexivity|].
  intros z Hz. rewrite Hz. split; [reflexivity|].
  pose proof (Z.div_mod z 2 ltac:(lia)) as Hdm.
  pose proof (Z.mod_pos_bound z 2 ltac:(lia)) as Hmod.
  lia.
Qed.

Lemma C9_witness :
  exists h t hb w1,
    createStream (Some (Fn 0)) fresh = Returned (RetStream (Some h)) w1 /\
    timers w1 !! t = Some (mkWatchdog (JsNum (Int 20000)) (Some OnTimeout) false 0) /\
    timers w1 !! hb = Some (mkWatchdog (JsNum (Int 10000)) (Some OnHeartbeat) false 0) /\
    phase w1 = Active.
Proof.
  destruct (C9_createStream_arms fresh (Some (Fn 0)) eq_refl)
    as (h & t & hb & w1 & Hcs & _ & _ & _ & _ & _ & _ & _ & _ & Ht1 & Hhb1 & _ & _ &
        _ & Hp & _).
  exists h, t, hb, w1.
  split; [exact Hcs|]. split; [exact Ht1|]. split; [exact Hhb1|]. exact Hp.
Defined.

(** ** The constructors and the timeout option *)

Lemma new_succeeds (c : ProtocolClass) (opts : option Opts) :
  (exists s, new c opts = inl s) <->
  c = UpgradeProtocol \/
  (truthy_str (opt_deviceName (default no_opts opts)) = true /\
   truthy_str (opt_deviceType (default no_opts opts)) = true).
Proof.
  destruct c; cbn [new]; unfold new_SyncProtocol, new_UpgradeProtocol.
  - destruct (truthy_str (opt_deviceName (default no_opts opts)));
      destruct (truthy_str (opt_deviceType (default no_opts opts)));
      cbn [negb]; split;
      [ intros [s Hs]; try discriminate; right; split; reflexivity
      | intros [Hc | [Ha Hb]]; try discriminate; eexists; reflexivity
      | intros [s Hs]; discriminate
      | intros [Hc | [Ha Hb]]; discriminate
      | intros [s Hs]; discriminate
      | intros [Hc | [Ha Hb]]; discriminate
      | intros [s Hs]; discriminate
      | intros [Hc | [Ha Hb]]; discriminate ].
  - split; [left; reflexivity | intros _; eexists; reflexivity].
Qed.

(** C10: the constructors store [opts.timeout || 20000].  A timeout that is
    absent ([opts] missing, [undefined]), [null], [false], [0] or [NaN]
    gives [timeoutMs = 20000]; any other value is stored as it is, negative
    numbers included, since nothing checks that it is a positive integer.
    No constructor fails because of the timeout: the minimal one always
    succeeds, the identifying one fails exactly when the device name or the
    device type is missing or empty, and whether a constructor fails does
    not depend on the timeout given. *)
Theorem C10_timeout_default (c : ProtocolClass) (opts : option Opts) :
  (forall s, new c opts = inl s ->
     (truthy (opt_timeout (default no_opts opts)) = false ->
      timeoutMs s = JsNum (Int 20000)) /\
     (truthy (opt_timeout (default no_opts opts)) = true ->
      timeoutMs s = opt_timeout (default no_opts opts))) /\
  (c = UpgradeProtocol -> exists s, new c opts = inl s) /\
  (c = SyncProtocol ->
     ((exists s, new c opts = inl s) <->
      truthy_str (opt_deviceName (default no_opts opts)) = true /\
      truthy_str (opt_deviceType (default no_opts opts)) = true)) /\
  (forall v,
     (exists s, new c opts = inl s) <->
     (exists s, new c (Some (mkOpts v (opt_deviceName (default no_opts opts))
                               (opt_deviceType (default no_opts opts)))) = inl s)) /\
  truthy JsUndefined = false /\ truthy JsNull = false /\
  truthy (JsBool false) = false /\ truthy (JsNum (Int 0)) = false /\
  truthy (JsNum NaN) = false /\
  (forall z, z <> 0%Z -> truthy (JsNum (Int z)) = true).
Proof.
  split.
  { intros s Hnew.
    assert (timeoutMs s = js_or (opt_timeout (default no_opts opts)) (JsNum (Int 20000)))
      as ->.
    { destruct c; cbn [new] in Hnew;
        unfold new_SyncProtocol, new_UpgradeProtocol in Hnew;
        repeat case_match; simplify_eq; reflexivity. }
    unfold js_or. split; intros ->; reflexivity. }
  split.
  { intros ->. eexists. reflexivity. }
  split.
  { intros ->. rewrite new_succeeds. split.
    - intros [Hc | H]; [discriminate | exact H].
    - intros H. right. exact H. }
  split.
  { intros v. rewrite !new_succeeds. reflexivity. }
  repeat (split; [reflexivity|]).
  intros z Hz. cbn [truthy]. destruct (Z.eqb_spec z 0); [contradiction|reflexivity].
Qed.

(** * Further properties *)

(** ** What every event keeps *)

Lemma user_calls_app (tr l : list Action) :
  user_calls (tr ++ l) = user_calls tr ++ user_calls l.
Proof. unfold user_calls. apply List.filter_app. Qed.

Lemma user_calls_quiet (tr l : list Action) :
  user_calls l = [] -> user_calls (tr ++ l) = user_calls tr.
Proof. intros H. rewrite user_calls_app, H, app_nil_r. reflexivity. Qed.

Lemma run_Inv (es : list Event) (w w' : World) :
  Inv w -> run es w = Some w' -> Inv w'.
Proof.
  revert w. induction es as [|e es IH]; intros w HI Hrun; cbn [run] in Hrun.
  - simplify_eq. exact HI.
  - destruct (step e w) as [o|] eqn:Hstep; [|discriminate].
    eapply IH; [|exact Hrun]. eapply Inv_step; eauto.
Qed.

(** What an event leaves of the configuration, and how it ends: it
    returns, unless it is an inbound [Heartbeat] on a session without a
    stream, which throws and changes nothing. *)
Lemma step_summary (w : World) (e : Event) (o : Outcome unit) :
  Inv w -> step e w = Some o ->
  same_config (this w) (this (world_of o)) /\
  ((exists w', o = Returned tt w') \/
   (exists cb,
      e = EvHeartbeatRequest cb /\ rpcStream (this w) = None /\
      o = Thrown (TypeError "Cannot read property 'refresh' of null") w)).
Proof.
  intros HI Hstep. unfold same_config.
  destruct HI as [H1 H2 H3 H4 H5 H6 | h cb' t hb wt whb H1 H2 H3 H4 H5 H6 H7 H8 H9 H10 H11].
  - (* no stream *)
    destruct e; cbn [step] in Hstep.
    + simplify_eq. unfold mbind, M_bind, bind.
      rewrite (createStream_idle w cb H1). cbn [ret world_of]. gfields.
      split; [auto|]. left. eauto.
    + simplify_eq. rewrite (close_idle w err cb H1). cbn [world_of]. gfields.
      split; [auto|]. left. eauto.
    + simplify_eq. rewrite (rpcHeartbeat_null w cb H2). cbn [world_of].
      split; [auto|]. right. eauto.
    + destruct (timers w !! id) as [x|] eqn:Hx; [|discriminate].
      rewrite (H6 id x Hx) in Hstep. discriminate.
    + destruct (inflight (rpc w)) as [|n] eqn:Hn; [discriminate|].
      destruct err as [e|]; cbn [reply_possible] in Hstep;
        [|rewrite H4 in Hstep; discriminate].
      simplify_eq. unfold mbind, M_bind, bind, set_rpc.
      cbn [heartbeatReply ret world_of]. gfields.
      split; [auto|]. left. eauto.
    + rewrite H4 in Hstep. discriminate.
    + destruct (closeReqs (rpc w)) as [|[reason k] rest]; [discriminate|].
      simplify_eq. unfold mbind, M_bind, bind, set_rpc.
      erewrite report_end_unbound by (gfields; exact H4).
      unfold invoke, emit. cbn [world_of]. gfields.
      split; [auto|]. left. eauto.
    + destruct (ticks w) as [|cb rest]; [discriminate|]. simplify_eq.
      mred0. gfields. split; [auto|]. left. eauto.
  - (* a stream is bound *)
    destruct e; cbn [step] in Hstep.
    + simplify_eq. unfold mbind, M_bind, bind.
      rewrite (createStream_bound w cb h H1). cbn [ret world_of].
      split; [auto|]. left. eauto.
    + simplify_eq.
      rewrite (close_bound w t hb wt whb H2 H3 H5 H6 H7 err cb h H1).
      cbn [world_of]. gfields. split; [auto|]. left. eauto.
    + simplify_eq.
      rewrite (rpcHeartbeat_bound w t hb wt whb H2 H3 H5 H6 H7 cb).
      cbn [world_of]. gfields. split; [auto|]. left. eauto.
    + destruct (timers w !! id) as [x|] eqn:Hx; [|discriminate].
      destruct (ontimeout x) as [fn|] eqn:Hfn; [|discriminate].
      destruct (called x) eqn:Hc; [discriminate|]. simplify_eq.
      assert (closing (rpc w) = false /\
              ((id = t /\ x = wt /\ fn = OnTimeout) \/
               (id = hb /\ x = whb /\ fn = OnHeartbeat))) as [Hcl Hid].
      { destruct (decide (id = t)) as [->|Hnt].
        - assert (x = wt) as -> by congruence.
          destruct (closing (rpc w)); [destruct H10; congruence|].
          split; [reflexivity|]. left. destruct H10 as (Ha & _). split; [reflexivity|].
          split; [reflexivity|]. congruence.
        - destruct (decide (id = hb)) as [->|Hnh];
            [|specialize (H11 id x Hx Hnt Hnh); congruence].
          assert (x = whb) as -> by congruence.
          destruct (closing (rpc w)); [destruct H10; congruence|].
          split; [reflexivity|]. right. destruct H10 as (_ & _ & Ha & _).
          split; [reflexivity|]. split; [reflexivity|]. congruence. }
      unfold mbind, M_bind, bind. rewrite (on_timer_some w wd_call id x Hx).
      destruct Hid as [(-> & -> & ->) | (-> & -> & ->)]; cbn [dispatch].
      * unfold onTimeout.
        erewrite (close_bound _ t hb (wd_call wt) whb) by store.
        cbn [world_of]. gfields. split; [auto|]. left. eauto.
      * erewrite (onHeartbeat_bound _ hb (wd_call whb)) by store.
        cbn [world_of]. gfields. split; [auto|]. left. eauto.
    + destruct (inflight (rpc w)) as [|n] eqn:Hn; [discriminate|].
      destruct (reply_possible err (rpc w)); [|discriminate]. simplify_eq.
      unfold mbind, M_bind, bind, set_rpc. destruct err as [e|].
      * cbn [heartbeatReply ret world_of]. gfields. split; [auto|]. left. eauto.
      * erewrite (heartbeatReply_bound _ t hb wt whb) by store.
        cbn [world_of]. gfields. split; [auto|]. left. eauto.
    + rewrite H4 in Hstep. simplify_eq.
      rewrite (report_end_bound w t hb wt whb H2 H3 H5 H6 H7 err h cb' H4).
      cbn [world_of]. gfields. split; [auto|]. left. eauto.
    + destruct (closeReqs (rpc w)) as [|[reason k] rest]; [discriminate|].
      simplify_eq. unfold mbind, M_bind, bind, set_rpc.
      erewrite (report_end_bound _ t hb wt whb) by store.
      unfold invoke, emit. cbn [world_of]. gfields. split; [auto|]. left. eauto.
    + destruct (ticks w) as [|cb rest]; [discriminate|]. simplify_eq.
      mred0. gfields. split; [auto|]. left. eauto.
Qed.

Lemma run_config (es : list Event) (w w' : World) :
  Inv w -> run es w = Some w' -> same_config (this w) (this w').
Proof.
  revert w. induction es as [|e es IH]; intros w HI Hrun; cbn [run] in Hrun.
  - simplify_eq. unfold same_config. auto.
  - destruct (step e w) as [o|] eqn:Hstep; [|discriminate].
    destruct (step_summary w e o HI Hstep) as [(Ha & Hb & Hc & Hd) _].
    destruct (IH (world_of o) (Inv_step e w o HI Hstep) Hrun) as (Ha' & Hb' & Hc' & Hd').
    unfold same_config. repeat split; congruence.
Qed.

Lemma truthy_str_nonempty (o : option string) :
  truthy_str o = true -> exists s, o = Some s /\ s <> ""%string.
Proof.
  destruct o as [s|]; [|discriminate]. cbn [truthy_str]. intros H.
  exists s. split; [reflexivity|]. intros ->. discriminate.
Qed.

Lemma new_fields (c : ProtocolClass) (opts : option Opts) (s : Session) :
  new c opts = inl s ->
  class s = c /\
  timeoutMs s = js_or (opt_timeout (default no_opts opts)) (JsNum (Int 20000)) /\
  rpcStream s = None /\ timeout s = None /\ heartbeat s = None /\
  match c with
  | SyncProtocol =>
      deviceName s = opt_deviceName (default no_opts opts) /\
      deviceType s = opt_deviceType (default no_opts opts) /\
      truthy_str (deviceName s) = true /\ truthy_str (deviceType s) = true
  | UpgradeProtocol => deviceName s = None /\ deviceType s = None
  end.
Proof.
  destruct c; cbn [new]; unfold new_SyncProtocol, new_UpgradeProtocol; intros H.
  - destruct (truthy_str (opt_deviceName (default no_opts opts))) eqn:E1;
      cbn [negb] in H; [|discriminate].
    destruct (truthy_str (opt_deviceType (default no_opts opts))) eqn:E2;
      cbn [negb] in H; [|discriminate].
    simplify_eq. cbn. auto 10.
  - simplify_eq. cbn. auto 10.
Qed.

(** ** Construction *)

(** X1: the identifying constructor throws 'must specify opts.deviceName'
    when the device name is missing or empty, whatever the device type is,
    and 'must specify opts.deviceType' when the name is given and the type
    is missing or empty.  A session that was constructed, of either class,
    is Unconnected with no stream and no timer; an identifying one holds
    the name and the type it was given, both non-empty strings. *)
Theorem X1_constructor_outcome (opts : option Opts) :
  (truthy_str (opt_deviceName (default no_opts opts)) = false ->
   new SyncProtocol opts = inr (Error "must specify opts.deviceName")) /\
  (truthy_str (opt_deviceName (default no_opts opts)) = true ->
   truthy_str (opt_deviceType (default no_opts opts)) = false ->
   new SyncProtocol opts = inr (Error "must specify opts.deviceType")) /\
  (forall c s, new c opts = inl s ->
     class s = c /\ rpcStream s = None /\ timeout s = None /\ heartbeat s = None /\
     phase (initWorld s) = Unconnected /\
     (c = SyncProtocol ->
      exists name type,
        opt_deviceName (default no_opts opts) = Some name /\
        opt_deviceType (default no_opts opts) = Some type /\
        deviceName s = Some name /\ deviceType s = Some type /\
        name <> ""%string /\ type <> ""%string)).
Proof.
  split; [|split].
  - intros H. cbn [new]. unfold new_SyncProtocol. rewrite H. reflexivity.
  - intros H1 H2. cbn [new]. unfold new_SyncProtocol. rewrite H1, H2. reflexivity.
  - intros c s Hnew.
    destruct (new_fields c opts s Hnew) as (Hc & _ & Hs & Ht & Hh & Hid).
    repeat (split; [assumption|]).
    split; [unfold phase; cbn [initWorld this rpc streams]; rewrite Hs; reflexivity|].
    intros ->. destruct Hid as (Hn & Hty & Tn & Tt).
    destruct (truthy_str_nonempty _ Tn) as (name & En & Nn).
    destruct (truthy_str_nonempty _ Tt) as (type & Et & Nt).
    exists name, type. repeat split; congruence.
Qed.

(** ** Peer information and configuration over the life of a session *)

(** X2: whatever happened to a session since it was constructed,
    [rpcGetPeerInfo] calls back with no error and with the protocol version
    of the class; for the identifying class the object carries the device
    name and the device type given to the constructor, for the minimal
    class it carries neither. *)
Theorem X2_peer_info_round_trip {R : Type} (cb : Err -> PeerInfo -> R)
    (c : ProtocolClass) (opts : option Opts) (s : Session) (es : list Event) (w : World) :
  new c opts = inl s ->
  run es (initWorld s) = Some w ->
  rpcGetPeerInfo cb (this w) =
    match c with
    | SyncProtocol =>
        cb None (mkPeerInfo "6.0.0" (opt_deviceName (default no_opts opts))
                   (opt_deviceType (default no_opts opts)))
    | UpgradeProtocol => cb None (mkPeerInfo "1.0.0" None None)
    end.
Proof.
  intros Hnew Hrun.
  destruct (run_config es (initWorld s) w (Inv_new c opts s Hnew) Hrun)
    as (Hc & Hn & Ht & _).
  cbn [initWorld this] in Hc, Hn, Ht.
  destruct (new_fields c opts s Hnew) as (Hcs & _ & _ & _ & _ & Hid).
  unfold rpcGetPeerInfo. rewrite Hc, Hcs.
  destruct c; [|reflexivity].
  destruct Hid as (En & Et & _). rewrite Hn, Ht, En, Et. reflexivity.
Qed.

Lemma X2_witness :
  rpcGetPeerInfo (fun err info => (err, info)) (this sync_closed) =
    (None, mkPeerInfo "6.0.0" (Some "test device") (Some "mobile")).
Proof.
  apply (X2_peer_info_round_trip (fun err info => (err, info)) SyncProtocol
           (Some sync_opts) sync_session
           [EvCreateStream None; EvTimer 1; EvClose None None; EvCloseDone]
           sync_closed).
  - reflexivity.
  - reflexivity.
Defined.

(** X3: whatever happened to a session since it was constructed, its
    [timeoutMs] is still [opts.timeout || 20000], which is never falsy;
    the watchdog the timeout field holds was created with that delay and
    the one the heartbeat field holds with [floor(timeoutMs/2)]. *)
Theorem X3_timeout_config_fixed
    (c : ProtocolClass) (opts : option Opts) (s : Session) (es : list Event) (w : World) :
  new c opts = inl s ->
  run es (initWorld s) = Some w ->
  timeoutMs (this w) = js_or (opt_timeout (default no_opts opts)) (JsNum (Int 20000)) /\
  truthy (timeoutMs (this w)) = true /\
  (forall t x, timeout (this w) = Some t -> timers w !! t = Some x ->
               ms x = timeoutMs (this w)) /\
  (forall hb x, heartbeat (this w) = Some hb -> timers w !! hb = Some x ->
                ms x = floor_half (timeoutMs (this w))).
Proof.
  intros Hnew Hrun.
  pose proof (Inv_new c opts s Hnew) as HI0.
  destruct (run_config es (initWorld s) w HI0 Hrun) as (_ & _ & _ & Hms).
  cbn [initWorld this] in Hms.
  destruct (new_fields c opts s Hnew) as (_ & Hto & _).
  split; [congruence|].
  split.
  { rewrite Hms, Hto. unfold js_or.
    destruct (truthy (opt_timeout (default no_opts opts))) eqn:E;
      [exact E | reflexivity]. }
  pose proof (run_Inv es (initWorld s) w HI0 Hrun) as HI.
  destruct HI as [H1 H2 H3 H4 H5 H6 | h cb' t hb wt whb H1 H2 H3 H4 H5 H6 H7 H8 H9 H10 H11].
  - split; intros ? ? Hf; congruence.
  - split; intros ? ? Hf Hl; congruence.
Qed.

Lemma X3_witness :
  timeoutMs (this sync_closed) = JsNum (Int 100) /\
  truthy (timeoutMs (this sync_closed)) = true.
Proof.
  destruct (X3_timeout_config_fixed SyncProtocol (Some sync_opts) sync_session
              [EvCreateStream None; EvTimer 1; EvClose None None; EvCloseDone]
              sync_closed eq_refl eq_refl) as (H1 & H2 & _).
  split; [exact H1 | exact H2].
Defined.

(** ** When timers fire, and what may throw *)

(** X4: a timer of the store can fire exactly when the session is Active
    and the timer is the one the timeout field or the heartbeat field
    holds.  So no timer fires before [createStream], after [close], or
    after the transport reported the end of the stream, and a watchdog that
    was replaced never fires. *)
Theorem X4_timer_fires_only_when_active (w : World) (id : TimerId) :
  reachable w ->
  (is_Some (step (EvTimer id) w) <->
   phase w = Active /\
   (timeout (this w) = Some id \/ heartbeat (this w) = Some id)).
Proof.
  intros Hw. pose proof (reachable_Inv w Hw) as HI. split.
  - intros [o Hstep]. cbn [step] in Hstep.
    destruct (timers w !! id) as [x|] eqn:Hx; [|discriminate].
    destruct (ontimeout x) as [fn|] eqn:Hfn; [|discriminate].
    destruct (Inv_armed w id x fn HI Hx Hfn)
      as (Hc & h & cb & t & hb & wt & whb & Hs & _ & Ht & Hh & _ & _ & _ & _ & _ &
          _ & _ & _ & _ & _ & Hid).
    split.
    + unfold phase. rewrite Hs, Hc. reflexivity.
    + destruct Hid as [[-> _] | [-> _]]; auto.
  - intros [Hp Hid].
    destruct (Inv_active w HI Hp) as (h & cb & t & hb & wt & whb & Hav).
    destruct Hav as [Hs Hb Hc Ht Hh Hne Hwt Hwhb Hwtms Hwhbms Hwtfn Hwtc Hwhbfn Hwhbc].
    destruct Hid as [Hid | Hid].
    + assert (id = t) as -> by congruence.
      rewrite (step_timer w t wt OnTimeout Hwt Hwtfn Hwtc). eauto.
    + assert (id = hb) as -> by congruence.
      rewrite (step_timer w hb whb OnHeartbeat Hwhb Hwhbfn Hwhbc). eauto.
Qed.

Lemma X4_witness :
  is_Some (step (EvTimer 0%nat) streaming) <->
  phase streaming = Active /\
  (timeout (this streaming) = Some 0%nat \/ heartbeat (this streaming) = Some 0%nat).
Proof.
  exact (X4_timer_fires_only_when_active streaming 0%nat reachable_streaming).
Defined.

(** X5: an event that happens to a session returns, with one exception:
    an inbound [Heartbeat] on a session without a stream, which throws the
    [TypeError] of reading [refresh] of [null] and changes nothing.  In
    particular no timer function and no function run by the transport at
    the end of a stream throws, and nothing throws while the session has a
    stream.  A [createStream] that asks the transport for a second stream
    is left out: a [muxrpc] instance gives one stream only and throws at
    the second request, which the transport of the model does not do. *)
Theorem X5_what_may_throw (w : World) (e : Event) (o : Outcome unit) :
  reachable w ->
  (forall cb, e = EvCreateStream cb ->
              is_Some (rpcStream (this w)) \/ streams (rpc w) = 0%nat) ->
  step e w = Some o ->
  ((exists w', o = Returned tt w') \/
   (exists cb,
      e = EvHeartbeatRequest cb /\ rpcStream (this w) = None /\
      o = Thrown (TypeError "Cannot read property 'refresh' of null") w)) /\
  (is_Some (rpcStream (this w)) -> exists w', o = Returned tt w').
Proof.
  intros Hw _ Hstep.
  destruct (step_summary w e o (reachable_Inv w Hw) Hstep) as (_ & Hok).
  split; [exact Hok|].
  intros [x Hx]. destruct Hok as [Hok | (cb & _ & Hs & _)]; [exact Hok | congruence].
Qed.

Lemma X5_witness :
  exists w', step (EvCreateStream (Some (Fn 1))) streaming = Some (Returned tt w').
Proof.
  destruct (X5_what_may_throw streaming (EvCreateStream (Some (Fn 1)))
              ((createStream (Some (Fn 1)) ;; ret tt) streaming)
              reachable_streaming
              (fun cb _ => or_introl (ex_intro _ 0%nat eq_refl))
              eq_refl) as [_ H].
  destruct (H (ex_intro _ 0%nat eq_refl)) as [w' Hw'].
  exists w'. cbn [step]. rewrite Hw'. reflexivity.
Defined.

(** ** Closing twice, and the end of a stream *)

Lemma wd_destroy_destroyed (x : Watchdog) :
  ontimeout x = None -> wd_destroy x = x.
Proof. destruct x as [m f c r]. cbn. intros ->. reflexivity. Qed.

Lemma Inv_stream (w : World) (h : StreamHandle) :
  Inv w -> rpcStream (this w) = Some h ->
  exists cb t hb wt whb,
    bound (rpc w) = Some (h, cb) /\
    timeout (this w) = Some t /\ heartbeat (this w) = Some hb /\ t <> hb /\
    timers w !! t = Some wt /\ timers w !! hb = Some whb /\
    (closing (rpc w) = true -> ontimeout wt = None /\ ontimeout whb = None).
Proof.
  intros HI Hs.
  destruct HI as [H1 H2 H3 H4 H5 H6 | h' cb t hb wt whb H1 H2 H3 H4 H5 H6 H7 H8 H9 H10 H11];
    [congruence|].
  assert (h' = h) as -> by congruence.
  exists cb, t, hb, wt, whb. repeat (split; [assumption|]).
  intros Hc. rewrite Hc in H10. exact H10.
Qed.

(** X6: [close(undefined, cb)] on a session that is already Closing
    returns without throwing.  It calls [destroy()] on the two watchdogs
    again, which changes nothing, and asks the transport to close once more,
    without a reason and with [cb.bind(null, undefined)]: the session, the
    timers and the queue are as before, and the session is still Closing. *)
Theorem X6_close_while_closing (w : World) (cb : option Callback) :
  reachable w -> phase w = Closing ->
  exists t hb w1,
    timeout (this w) = Some t /\ heartbeat (this w) = Some hb /\
    close None cb w = Returned tt w1 /\
    this w1 = this w /\ timers w1 = timers w /\ ticks w1 = ticks w /\
    trace w1 = trace w ++
      [TimerDestroy t; TimerDestroy hb; RpcClose None (Bind (or_noop cb) None)] /\
    bound (rpc w1) = bound (rpc w) /\ inflight (rpc w1) = inflight (rpc w) /\
    phase w1 = Closing.
Proof.
  intros Hw Hp. pose proof (reachable_Inv w Hw) as HI.
  unfold phase in Hp.
  destruct (rpcStream (this w)) as [h|] eqn:Hs;
    [|destruct (streams (rpc w)); discriminate].
  destruct (closing (rpc w)) eqn:Hc; [|discriminate].
  destruct (Inv_stream w h HI Hs) as (scb & t & hb & wt & whb & Hb & Ht & Hh & Hne &
                                      Hwt & Hwhb & Hd).
  destruct (Hd Hc) as [Ha Hb'].
  exists t, hb. eexists.
  split; [assumption|]. split; [assumption|].
  split; [apply (close_bound w t hb wt whb Ht Hh Hne Hwt Hwhb None cb h Hs)|].
  gfields. split; [reflexivity|].
  split.
  { rewrite (wd_destroy_destroyed wt Ha), (wd_destroy_destroyed whb Hb').
    rewrite !list_insert_id by store. reflexivity. }
  repeat (split; [reflexivity|]).
  unfold phase. gfields. rewrite Hs, Hb. reflexivity.
Qed.

Lemma X6_witness :
  exists w1,
    close None (Some (Fn 9)) closing_inflight = Returned tt w1 /\
    timers w1 = timers closing_inflight /\
    trace w1 = trace closing_inflight ++
      [TimerDestroy 0%nat; TimerDestroy 2%nat; RpcClose None (Bind (Fn 9) None)].
Proof.
  destruct (X6_close_while_closing closing_inflight (Some (Fn 9))
              reachable_closing_inflight eq_refl)
    as (t & hb & w1 & Ht & Hh & Hc & _ & Htm & _ & Htr & _).
  cbn in Ht, Hh. simplify_eq.
  exists w1. split; [exact Hc|]. split; [exact Htm|]. exact Htr.
Defined.

Lemma step_transportEnd (w : World) (t hb : TimerId) (wt whb : Watchdog) :
  timeout (this w) = Some t ->
  heartbeat (this w) = Some hb ->
  t <> hb ->
  timers w !! t = Some wt ->
  timers w !! hb = Some whb ->
  forall (err : Err) (h : StreamHandle) (cb : Callback),
  bound (rpc w) = Some (h, cb) ->
  step (EvTransportEnd err) w =
    Some (Returned tt
            (mkWorld
               (mkSession (class (this w)) (deviceName (this w)) (deviceType (this w))
                  (timeoutMs (this w)) None None None)
               (<[hb := wd_destroy whb]> (<[t := wd_destroy wt]> (timers w)))
               (mkTransport None false (closeReqs (rpc w)) (inflight (rpc w))
                  (streams (rpc w)))
               (ticks w)
               (trace w ++ [TimerDestroy t; TimerDestroy hb] ++ calls cb [err]))).
Proof.
  intros Ht Hhb Hne Hwt Hwhb err h cb Hb. cbn [step]. rewrite Hb.
  rewrite (report_end_bound w t hb wt whb Ht Hhb Hne Hwt Hwhb err h cb Hb).
  reflexivity.
Qed.

(** X7: when the transport reports the end of the stream of a session,
    with or without an error, both watchdogs are destroyed, the stream and
    the two timer fields are cleared, and the callback given to
    [createStream] is called with what the transport reported, unchanged.
    Afterwards every timer of the store is destroyed, no timer can fire,
    and the transport has no stream whose end it could report again. *)
Theorem X7_transport_end (w : World) (h : StreamHandle) (cb : Callback) (err : Err) :
  reachable w ->
  bound (rpc w) = Some (h, cb) ->
  exists t hb w1,
    rpcStream (this w) = Some h /\
    timeout (this w) = Some t /\ heartbeat (this w) = Some hb /\
    step (EvTransportEnd err) w = Some (Returned tt w1) /\
    trace w1 = trace w ++ [TimerDestroy t; TimerDestroy hb] ++ calls cb [err] /\
    rpcStream (this w1) = None /\ timeout (this w1) = None /\
    heartbeat (this w1) = None /\
    (forall id x, timers w1 !! id = Some x -> ontimeout x = None) /\
    (forall id, step (EvTimer id) w1 = None) /\
    (forall err', step (EvTransportEnd err') w1 = None).
Proof.
  intros Hw Hb. pose proof (reachable_Inv w Hw) as HI.
  destruct HI as [H1 H2 H3 H4 H5 H6 | h' cb' t hb wt whb H1 H2 H3 H4 H5 H6 H7 H8 H9 H10 H11];
    [congruence|].
  assert (h' = h /\ cb' = cb) as [-> ->] by (split; congruence).
  pose proof (step_transportEnd w t hb wt whb H2 H3 H5 H6 H7 err h cb Hb) as Hstep.
  match type of Hstep with _ = Some (Returned tt ?x) => set (w1 := x) in * end.
  assert (Inv w1) as HI1.
  { exact (Inv_step _ _ _ (reachable_Inv w Hw) Hstep). }
  assert (forall id x, timers w1 !! id = Some x -> ontimeout x = None) as Hall.
  { destruct HI1 as [G1 G2 G3 G4 G5 G6 | ? ? ? ? ? ? G1]; [exact G6 | discriminate G1]. }
  exists t, hb, w1.
  repeat (split; [assumption|]).
  split; [reflexivity|]. split; [reflexivity|]. split; [reflexivity|].
  split; [reflexivity|]. split; [exact Hall|].
  split.
  { intros id. cbn [step]. destruct (timers w1 !! id) as [x|] eqn:Hx; [|reflexivity].
    rewrite (Hall id x Hx). reflexivity. }
  intros err'. reflexivity.
Qed.

Lemma X7_witness :
  exists w1,
    step (EvTransportEnd None) streaming = Some (Returned tt w1) /\
    trace w1 = trace streaming ++ [TimerDestroy 0%nat; TimerDestroy 1%nat; Call 0 [None]] /\
    rpcStream (this w1) = None.
Proof.
  destruct (X7_transport_end streaming 0%nat (Fn 0) None reachable_streaming eq_refl)
    as (t & hb & w1 & _ & Ht & Hh & Hstep & Htr & Hs & _).
  cbn in Ht, Hh. simplify_eq.
  exists w1. split; [exact Hstep|]. split; [exact Htr|]. exact Hs.
Defined.

(** ** A successful heartbeat reply while the session is Closing *)

(** X11: a successful reply to an outbound [Heartbeat] that arrives after
    [close] destroyed the watchdogs and before the transport reported the
    end of the stream calls [refresh()] on the two destroyed watchdogs and
    does not throw.  This re-arms neither: both are still destroyed, no
    timer can fire, and the session, the timers, the transport and the
    queue are as before. *)
Theorem X11_reply_while_closing (w : World) :
  reachable w -> phase w = Closing ->
  exists t hb,
    timeout (this w) = Some t /\ heartbeat (this w) = Some hb /\
    heartbeatReply None w =
      Returned tt
        (mkWorld (this w) (timers w) (rpc w) (ticks w)
           (trace w ++ [TimerRefresh t; TimerRefresh hb])) /\
    exists_wd (timeout (this w)) w = false /\
    exists_wd (heartbeat (this w)) w = false /\
    (forall id, step (EvTimer id) w = None).
Proof.
  intros Hw Hp. pose proof (reachable_Inv w Hw) as HI.
  destruct (Inv_closing w HI Hp)
    as (t & hb & wt & whb & Ht & Hh & Hne & Hwt & Hwhb & Ha & Hb).
  exists t, hb. split; [assumption|]. split; [assumption|].
  split.
  { rewrite (heartbeatReply_bound w t hb wt whb Ht Hh Hne Hwt Hwhb).
    rewrite (wd_refresh_destroyed wt Ha), (wd_refresh_destroyed whb Hb).
    rewrite !list_insert_id by store. reflexivity. }
  split; [unfold exists_wd, wd_destroyed; rewrite Ht, Hwt, Ha; reflexivity|].
  split; [unfold exists_wd, wd_destroyed; rewrite Hh, Hwhb, Hb; reflexivity|].
  intros id. cbn [step].
  destruct (timers w !! id) as [x|] eqn:Hx; [|reflexivity].
  destruct (ontimeout x) as [fn|] eqn:Hfn; [|reflexivity].
  destruct (Inv_armed w id x fn HI Hx Hfn) as (Hc & _).
  unfold phase in Hp. destruct (rpcStream (this w)).
  - rewrite Hc in Hp. discriminate.
  - destruct (streams (rpc w)); discriminate.
Qed.

Lemma X11_witness :
  heartbeatReply None closing_inflight =
    Returned tt
      (mkWorld (this closing_inflight) (timers closing_inflight)
         (rpc closing_inflight) (ticks closing_inflight)
         (trace closing_inflight ++ [TimerRefresh 0%nat; TimerRefresh 2%nat])).
Proof.
  destruct (X11_reply_while_closing closing_inflight reachable_closing_inflight eq_refl)
    as (t & hb & Ht & Hh & Heq & _).
  cbn in Ht, Hh. simplify_eq. exact Heq.
Defined.

(** ** Heartbeats without replies, and the way to a timeout *)

Lemma user_calls_calls (cb : Callback) (args : list Err) :
  user_calls (calls cb args) = calls cb args.
Proof.
  revert args. induction cb as [|n|f IH a]; intros args; cbn [calls].
  - reflexivity.
  - reflexivity.
  - apply IH.
Qed.

Lemma fire_heartbeat_active (w : World) (h : StreamHandle) (cb : Callback)
    (t hb : TimerId) (wt whb : Watchdog) :
  ActiveView w h cb t hb wt whb ->
  step (EvTimer hb) w =
    Some (Returned tt
            (mkWorld
               (mkSession (class (this w)) (deviceName (this w)) (deviceType (this w))
                  (timeoutMs (this w)) (rpcStream (this w)) (timeout (this w))
                  (Some (length (timers w))))
               (<[hb := wd_destroy (wd_call whb)]> (<[hb := wd_call whb]> (timers w)) ++
                  [mkWatchdog (floor_half (timeoutMs (this w))) (Some OnHeartbeat) false 0])
               (mkTransport (bound (rpc w)) (closing (rpc w)) (closeReqs (rpc w))
                  (S (inflight (rpc w))) (streams (rpc w)))
               (ticks w)
               (trace w ++
                  [TimerDestroy hb;
                   TimerCreate (length (timers w)) (floor_half (timeoutMs (this w)))
                     OnHeartbeat;
                   RpcHeartbeat]))).
Proof.
  intros [Hs Hb Hc Ht Hh Hne Hwt Hwhb Hwtms Hwhbms Hwtfn Hwtc Hwhbfn Hwhbc].
  rewrite (step_timer w hb whb OnHeartbeat Hwhb Hwhbfn Hwhbc). cbn [dispatch].
  erewrite (onHeartbeat_bound _ hb (wd_call whb)) by store.
  gfields. rewrite length_insert. reflexivity.
Qed.

Lemma fire_timeout_active (w : World) (h : StreamHandle) (cb : Callback)
    (t hb : TimerId) (wt whb : Watchdog) :
  ActiveView w h cb t hb wt whb ->
  step (EvTimer t) w =
    Some (Returned tt
            (mkWorld (this w)
               (<[hb := wd_destroy whb]>
                  (<[t := wd_destroy (wd_call wt)]> (<[t := wd_call wt]> (timers w))))
               (mkTransport (Some (h, cb)) true
                  (closeReqs (rpc w) ++
                     [(Some remote_timeout, Bind Noop (Some remote_timeout))])
                  (inflight (rpc w)) (streams (rpc w)))
               (ticks w)
               (trace w ++
                  [TimerDestroy t; TimerDestroy hb;
                   RpcClose (Some remote_timeout) (Bind Noop (Some remote_timeout))]))).
Proof.
  intros [Hs Hb Hc Ht Hh Hne Hwt Hwhb Hwtms Hwhbms Hwtfn Hwtc Hwhbfn Hwhbc].
  rewrite (step_timer w t wt OnTimeout Hwt Hwtfn Hwtc). cbn [dispatch].
  unfold onTimeout.
  erewrite (close_bound _ t hb (wd_call wt) whb) by store.
  gfields. rewrite Hb. reflexivity.
Qed.

Lemma beats_active (n : nat) (w : World) :
  reachable w -> phase w = Active ->
  exists w',
    beats n w = Some w' /\ reachable w' /\ phase w' = Active /\
    inflight (rpc w') = (n + inflight (rpc w))%nat /\
    length (timers w') = (n + length (timers w))%nat /\
    rpcStream (this w') = rpcStream (this w) /\
    timeout (this w') = timeout (this w) /\
    (forall t, timeout (this w) = Some t -> timers w' !! t = timers w !! t) /\
    bound (rpc w') = bound (rpc w) /\
    closeReqs (rpc w') = closeReqs (rpc w) /\
    ticks w' = ticks w /\
    user_calls (trace w') = user_calls (trace w).
Proof.
  revert w. induction n as [|n IH]; intros w Hw Hp.
  - exists w. cbn [beats]. auto 15.
  - destruct (Inv_active w (reachable_Inv w Hw) Hp) as (h & cb & t & hb & wt & whb & Hav).
    pose proof (fire_heartbeat_active w h cb t hb wt whb Hav) as Hstep.
    destruct Hav as [Hs Hb Hc Ht Hh Hne Hwt Hwhb Hwtms Hwhbms Hwtfn Hwtc Hwhbfn Hwhbc].
    match type of Hstep with _ = Some (Returned tt ?x) => set (w1 := x) in * end.
    assert (reachable w1) as Hw1 by exact (reachable_step _ _ _ Hw Hstep).
    assert (phase w1 = Active) as Hp1.
    { unfold phase. change (rpcStream (this w1)) with (rpcStream (this w)).
      change (closing (rpc w1)) with (closing (rpc w)). rewrite Hs, Hc. reflexivity. }
    destruct (IH w1 Hw1 Hp1)
      as (w' & Hbeats & Hw' & Hp' & Hin & Hlen & Hrs & Hto & Hsame & Hbd & Hq & Htk & Huc).
    assert (t < length (timers w))%nat as Hlt by (eapply lookup_lt_Some; eauto).
    exists w'. split.
    { cbn [beats]. unfold fire. rewrite Hh, Hstep. exact Hbeats. }
    split; [exact Hw'|]. split; [exact Hp'|].
    split; [rewrite Hin; cbn [w1 rpc inflight]; lia|].
    split.
    { rewrite Hlen. subst w1. gfields.
      rewrite length_app, !length_insert. cbn [length]. lia. }
    split; [exact Hrs|]. split; [exact Hto|].
    split.
    { intros t' Ht'. assert (t' = t) as -> by congruence.
      rewrite (Hsame t Ht). subst w1. gfields.
      rewrite lookup_app_l by (rewrite !length_insert; exact Hlt).
      rewrite !list_lookup_insert_ne by congruence. reflexivity. }
    split; [exact Hbd|]. split; [exact Hq|]. split; [exact Htk|].
    rewrite Huc. subst w1. gfields. apply user_calls_quiet. reflexivity.
Qed.

(** X8: on an Active session the heartbeat watchdog can fire any number of
    times in a row without a reply in between.  Each firing issues one more
    outbound [Heartbeat] and creates one more timer, the session stays
    Active with the same stream, and the timeout watchdog is left as it
    was, neither refreshed nor replaced; no close is requested and no
    function of the caller is called. *)
Theorem X8_unanswered_heartbeats (w : World) (n : nat) :
  reachable w -> phase w = Active ->
  exists w',
    beats n w = Some w' /\ phase w' = Active /\
    inflight (rpc w') = (n + inflight (rpc w))%nat /\
    length (timers w') = (n + length (timers w))%nat /\
    rpcStream (this w') = rpcStream (this w) /\
    timeout (this w') = timeout (this w) /\
    (forall t, timeout (this w) = Some t -> timers w' !! t = timers w !! t) /\
    closeReqs (rpc w') = closeReqs (rpc w) /\
    user_calls (trace w') = user_calls (trace w).
Proof.
  intros Hw Hp.
  destruct (beats_active n w Hw Hp)
    as (w' & Hbeats & _ & Hp' & Hin & Hlen & Hrs & Hto & Hsame & _ & Hq & _ & Huc).
  exists w'. auto 12.
Qed.

Lemma X8_witness :
  exists w',
    beats 3 streaming = Some w' /\ phase w' = Active /\
    inflight (rpc w') = 3%nat /\ length (timers w') = 5%nat /\
    timers w' !! 0%nat = Some (mkWatchdog (JsNum (Int 20000)) (Some OnTimeout) false 0).
Proof.
  destruct (X8_unanswered_heartbeats streaming 3 reachable_streaming eq_refl)
    as (w' & Hbeats & Hp & Hin & Hlen & _ & _ & Hsame & _).
  exists w'. split; [exact Hbeats|]. split; [exact Hp|].
  split; [exact Hin|]. split; [exact Hlen|].
  exact (Hsame 0%nat eq_refl).
Defined.

(** X9: a session of either class is constructed, [createStream(cb)] is
    called, the heartbeat watchdog fires any number of times and no reply
    ever comes, the timeout watchdog fires, and the transport completes the
    close this requested.  Over this whole life the only function of the
    caller that was called is [cb], once, with [new Error('remote
    timeout')]; at the end the session has no stream, every timer is
    destroyed and none can fire. *)
Theorem X9_timeout_lifecycle
    (c : ProtocolClass) (opts : option Opts) (s : Session) (cb : option Callback) (n : nat) :
  new c opts = inl s ->
  exists w1 w2 w3 w4,
    createStream cb (initWorld s) = Returned (RetStream (Some 0%nat)) w1 /\
    beats n w1 = Some w2 /\
    fire (timeout (this w2)) w2 = Some w3 /\
    step EvCloseDone w3 = Some (Returned tt w4) /\
    user_calls (trace w4) = calls (or_noop cb) [Some (Error "remote timeout")] /\
    rpcStream (this w4) = None /\
    inflight (rpc w4) = n /\
    (forall id x, timers w4 !! id = Some x -> ontimeout x = None) /\
    (forall id, step (EvTimer id) w4 = None).
Proof.
  intros Hnew.
  destruct (new_fields c opts s Hnew) as (_ & _ & Hs0 & _).
  pose proof (createStream_idle (initWorld s) cb Hs0) as Hcs.
  cbn [initWorld this timers rpc ticks trace streams closeReqs inflight length app] in Hcs.
  match type of Hcs with _ = Returned _ ?x => set (w1 := x) in * end.
  assert (reachable w1) as Hw1.
  { pose proof (reachable_step (EvCreateStream cb) (initWorld s) _
                  (reachable_new c opts s Hnew) eq_refl) as H.
    unfold mbind, M_bind, bind in H. rewrite Hcs in H. exact H. }
  destruct (beats_active n w1 Hw1 eq_refl)
    as (w2 & Hbeats & Hw2 & Hp2 & Hin & _ & _ & _ & _ & Hbd & Hq & _ & Huc).
  cbn [w1 rpc bound closeReqs inflight trace] in Hbd, Hq, Hin, Huc.
  destruct (Inv_active w2 (reachable_Inv w2 Hw2) Hp2) as (h & scb & t & hb & wt & whb & Hav).
  pose proof (fire_timeout_active w2 h scb t hb wt whb Hav) as Hfire.
  destruct Hav as [Hs Hb Hc Ht Hh Hne Hwt Hwhb Hwtms Hwhbms Hwtfn Hwtc Hwhbfn Hwhbc].
  assert (h = 0%nat /\ scb = or_noop cb) as [-> ->] by (split; congruence).
  rewrite Hq in Hfire. cbn [app] in Hfire.
  match type of Hfire with _ = Some (Returned tt ?x) => set (w3 := x) in * end.
  assert (timers w3 !! t = Some (wd_destroy (wd_call wt))) as Hwt3.
  { apply lookup_insert_other; [congruence|].
    eapply lookup_insert_same. eapply lookup_insert_same; eauto. }
  assert (timers w3 !! hb = Some (wd_destroy whb)) as Hwhb3.
  { eapply lookup_insert_same. apply lookup_insert_other; [congruence|].
    apply lookup_insert_other; eauto. }
  pose proof (step_closeDone w3 (Some remote_timeout)
                (Bind Noop (Some remote_timeout)) [] eq_refl) as Hdone.
  unfold mbind, M_bind, bind in Hdone.
  erewrite (report_end_bound _ t hb (wd_destroy (wd_call wt)) (wd_destroy whb))
    in Hdone
    by first [exact Ht | exact Hh | exact Hne | exact Hwt3 | exact Hwhb3 | reflexivity].
  unfold invoke, emit in Hdone. gfields. cbn [calls] in Hdone.
  match type of Hdone with _ = Some (Returned tt ?x) => set (w4 := x) in * end.
  assert (Inv w4) as HI4.
  { apply (Inv_step EvCloseDone w3 (Returned tt w4)); [|exact Hdone].
    apply (Inv_step (EvTimer t) w2 (Returned tt w3)); [|exact Hfire].
    exact (reachable_Inv w2 Hw2). }
  assert (forall id x, timers w4 !! id = Some x -> ontimeout x = None) as Hall.
  { destruct HI4 as [G1 G2 G3 G4 G5 G6 | ? ? ? ? ? ? G1]; [exact G6 | discriminate G1]. }
  exists w1, w2, w3, w4.
  split; [exact Hcs|]. split; [exact Hbeats|].
  split; [unfold fire; rewrite Ht, Hfire; reflexivity|].
  split; [exact Hdone|].
  split.
  { subst w4 w3. gfields. rewrite app_nil_r.
    rewrite !user_calls_app, Huc, user_calls_calls. reflexivity. }
  split; [reflexivity|].
  split; [subst w4 w3; gfields; rewrite Hin; lia|].
  split; [exact Hall|].
  intros id. cbn [step]. destruct (timers w4 !! id) as [x|] eqn:Hx; [|reflexivity].
  rewrite (Hall id x Hx). reflexivity.
Qed.

Lemma X9_witness :
  exists w1 w2 w3 w4,
    createStream (Some (Fn 0)) (initWorld sync_session) =
      Returned (RetStream (Some 0%nat)) w1 /\
    beats 2 w1 = Some w2 /\
    fire (timeout (this w2)) w2 = Some w3 /\
    step EvCloseDone w3 = Some (Returned tt w4) /\
    user_calls (trace w4) = [Call 0 [Some (Error "remote timeout")]].
Proof.
  destruct (X9_timeout_lifecycle SyncProtocol (Some sync_opts) sync_session
              (Some (Fn 0)) 2 eq_refl)
    as (w1 & w2 & w3 & w4 & H1 & H2 & H3 & H4 & H5 & _).
  exists w1, w2, w3, w4. auto.
Defined.
